(** * The plugin registry of InvenTree (plugin/registry.py)

    A shallow embedding of [PluginsRegistry]: the registry object, the part
    of the host it mutates (settings.INSTALLED_APPS, the maintenance flag,
    the PluginConfig and Schedule tables, the route list), and the Django
    application registry behind an interface.  Python exceptions are
    modelled by an outcome that keeps the state reached when the exception
    is raised; every call into an external collaborator is also recorded as
    an event, so that statements about the order of effects can be made. *)

From Stdlib Require Import String Ascii List ZArith Bool Lia Permutation.
From Equations Require Import Equations.
Import ListNotations.
Open Scope string_scope.
Open Scope list_scope.

Set Implicit Arguments.

(** ** Strings *)

(** Python truthiness of a [str]: the empty string is false. *)
Definition truthy (s : string) : bool := negb (s =? "").

Definition lower_ascii (c : ascii) : ascii :=
  let n := nat_of_ascii c in
  if andb (Nat.leb 65 n) (Nat.leb n 90) then ascii_of_nat (n + 32) else c.

Fixpoint lower (s : string) : string :=
  match s with
  | EmptyString => EmptyString
  | String c r => String (lower_ascii c) (lower r)
  end.

(** [name__istartswith=p] of a Django query: case-insensitive prefix test. *)
Definition istartswith (p s : string) : bool := String.prefix (lower p) (lower s).

(** [s.split('.')[-1]] *)
Fixpoint last_component_from (acc s : string) : string :=
  match s with
  | EmptyString => acc
  | String c r =>
      if Ascii.eqb c "."%char then last_component_from EmptyString r
      else last_component_from (acc ++ String c EmptyString) r
  end.

Definition last_component (s : string) : string := last_component_from EmptyString s.

Definition mem (s : string) (l : list string) : bool := existsb (String.eqb s) l.

(** [list.remove(x)]: removes the first occurrence. *)
Fixpoint remove_first (x : string) (l : list string) : list string :=
  match l with
  | [] => []
  | y :: r => if x =? y then r else y :: remove_first x r
  end.

(** ** Python dictionaries with string keys (insertion ordered) *)

Definition dict (V : Type) := list (string * V).

Fixpoint dict_set {V} (k : string) (v : V) (d : dict V) : dict V :=
  match d with
  | [] => [(k, v)]
  | (k', v') :: r => if k =? k' then (k, v) :: r else (k', v') :: dict_set k v r
  end.

Definition keys {V} (d : dict V) : list string := map fst d.


(** ** Data model *)

(** A row of the persisted PluginConfig table. *)
Record PluginConfig := mkConfig {
  cfg_pk : nat;
  cfg_key : string;
  cfg_name : string;
  cfg_active : bool
}.

(** A plugin instance, as far as the registry reads it. *)
Record PluginInstance := mkInstance {
  slug : string;                         (* plugin.slug *)
  inst_name : string;                    (* plugin.PLUGIN_NAME *)
  rel_path : option (list string);       (* parts of plugin.path relative to BASE_DIR, if it is below it *)
  mixins : list string;                  (* keys for which mixin_enabled(key) holds *)
  inst_settings : list (string * string);(* plugin.settings *)
  scheduled_tasks : list string;         (* keys of plugin.scheduled_tasks *)
  is_package : bool;
  pk : option nat
}.

(** Outcome of calling the plugin class: an instance, or an exception that
    get_plugin_error turns into an IntegrationPluginError (path, message). *)
Inductive InstResult :=
| InstOk (i : PluginInstance)
| InstRaises (path message : string).

(** A discovered plugin class: the static attributes read before
    instantiation, and what instantiating it does. *)
Record PluginClass := mkClass {
  cls_name : string;                     (* plugin.__name__ *)
  cls_module : string;                   (* plugin.__module__ *)
  PLUGIN_NAME : string;
  PLUGIN_SLUG : option string;
  cls_is_package : bool;                 (* getattr(plugin, 'is_package', False) *)
  construct : InstResult                 (* plugin() *)
}.

(** One entry of the route list; [app_name = None] when the entry has no
    such attribute. *)
Record RouteEntry := mkRoute {
  app_name : option string;
  route_target : string
}.

(** Result of resolving one search path of PLUGIN_DIRS. *)
Inductive DirOutcome :=
| DirImportFails (message : string)        (* importlib.import_module raises *)
| DirModules (found : list PluginClass).   (* what get_plugins returns *)

(** Result of [entry.load()] for one package entry point. *)
Inductive EntryOutcome :=
| EntryFails (path message : string)
| EntryLoaded (cls : PluginClass).

(** Settings and the other collaborators that the registry only reads. *)
Record Env := mkEnv {
  PLUGIN_TESTING : bool;
  PLUGIN_TESTING_SETUP : bool;
  PLUGIN_RETRY : Z;
  PLUGIN_DIRS : list string;
  ENABLE_PLUGINS_SCHEDULE : bool;          (* InvenTreeSetting.get_setting(...) *)
  ENABLE_PLUGINS_APP : bool;
  slugify : string -> string;              (* django.utils.text.slugify *)
  import_plugin_dir : string -> DirOutcome;
  entry_points : list EntryOutcome;        (* metadata.entry_points()['inventree_plugins'] *)
  config_default_active : bool             (* default of PluginConfig.active for a new row *)
}.

Inductive Exn :=
| DbError                                  (* OperationalError, ProgrammingError *)
| IntegrationPluginError (path message : string)
| IntegrityError                           (* unique key violated in get_or_create *)
| AttributeError
| ImportError (message : string)
| NotRegistered                            (* admin.sites.NotRegistered *)
| KeyError.

Inductive Outcome (A : Type) :=
| Ok (a : A)
| Raise (e : Exn).
Arguments Ok {A} a.
Arguments Raise {A} e.

(** Calls into the collaborators, and the writes to the guard flag. *)
Inductive Event :=
| EvMaintenance (on : bool)
| EvInitPlugins (disabled : option string)
| EvInstantiate (cls : string)
| EvConfigCreate (key : string)
| EvConfigSave (key : string) (active : bool)
| EvTaskRegister (name : string)
| EvTaskDelete (name : string)
| EvIsLoading (b : bool)
| EvAppsReset
| EvPopulate (apps : list string)
| EvSetInstalledApps (apps : list string)
| EvReloadModels (app : string)
| EvReloadAdmin (app : string)
| EvAdminUnregister (app model : string)
| EvModelPop (path model : string)
| EvRegistryPop (app : string)
| EvCleanInstalledApps
| EvUpdateUrls
| EvSettingsCleared.

(** ** The Django application registry and admin site, behind an interface *)

Class HostApps (H : Type) := {
  get_app_config : H -> string -> bool;            (* false: LookupError *)
  models_module_set : H -> string -> bool;         (* app_config.models_module *)
  models_count : H -> string -> nat;               (* len(app_config.models) *)
  get_models : H -> string -> list string;         (* model names of app_config.get_models() *)
  has_admin_module : H -> string -> bool;          (* hasattr(app_config.module, 'admin') *)
  admin_is_registered : H -> string -> string -> bool;
  reload_models_module : string -> H -> H;
  reload_admin_module : string -> H -> H;
  admin_unregister : string -> string -> H -> option H;    (* None: NotRegistered *)
  all_models_pop : string -> string -> H -> bool * H;
    (* apps.all_models[key].pop(model) on the defaultdict; false: KeyError *)
  all_models_contains : H -> string -> bool;
  all_models_pop_app : string -> H -> H;
  apps_reset : H -> H;                             (* app_configs = OrderedDict(), flags, clear_cache *)
  apps_populate : list string -> H -> option (string * string) * H;
  apps_set_installed_apps : list string -> H -> option (string * string) * H
}.

(** ** State *)

(** The fields of a [PluginsRegistry] object. *)
Record Registry := mkRegistry {
  plugins : dict PluginInstance;
  plugins_inactive : dict (option PluginConfig);
  plugin_modules : list PluginClass;
  errors : dict string;
  is_loading : bool;
  apps_loading : bool;
  installed_apps : list string;
  mixins_settings : dict (list (string * string))
}.

(** [PluginsRegistry.__init__] *)
Definition new_registry : Registry :=
  mkRegistry [] [] [] [] false true [] [].

(** The host state the registry touches. *)
Record Host (H : Type) := mkHost {
  maintenance_mode : bool;
  INSTALLED_APPS : list string;            (* settings.INSTALLED_APPS *)
  INTEGRATION_APPS_LOADED : bool;          (* settings.INTEGRATION_APPS_LOADED *)
  db_ready : bool;                         (* false: queries raise OperationalError *)
  plugin_configs : list PluginConfig;      (* PluginConfig.objects *)
  schedules : list string;                 (* names of the rows of django_q Schedule *)
  frontendpatterns : list RouteEntry;      (* InvenTree.urls.frontendpatterns *)
  global_front : list RouteEntry;          (* what global_pattern[0] includes *)
  url_cache_clears : nat;                  (* number of clear_url_caches() calls *)
  apps : H                                 (* django.apps.apps and admin.site *)
}.
Arguments mkHost {H}.

Record State (H : Type) := mkState {
  reg : Registry;
  host : Host H
}.
Arguments mkState {H}.

Section Setters.
Context {H : Type}.

Definition upd_reg (f : Registry -> Registry) (st : State H) : State H :=
  mkState (f (reg st)) (host st).
Definition upd_host (f : Host H -> Host H) (st : State H) : State H :=
  mkState (reg st) (f (host st)).

Definition set_plugins v (r : Registry) :=
  mkRegistry v (plugins_inactive r) (plugin_modules r) (errors r) (is_loading r)
             (apps_loading r) (installed_apps r) (mixins_settings r).
Definition set_plugins_inactive v (r : Registry) :=
  mkRegistry (plugins r) v (plugin_modules r) (errors r) (is_loading r)
             (apps_loading r) (installed_apps r) (mixins_settings r).
Definition set_plugin_modules v (r : Registry) :=
  mkRegistry (plugins r) (plugins_inactive r) v (errors r) (is_loading r)
             (apps_loading r) (installed_apps r) (mixins_settings r).
Definition set_errors v (r : Registry) :=
  mkRegistry (plugins r) (plugins_inactive r) (plugin_modules r) v (is_loading r)
             (apps_loading r) (installed_apps r) (mixins_settings r).
Definition set_is_loading v (r : Registry) :=
  mkRegistry (plugins r) (plugins_inactive r) (plugin_modules r) (errors r) v
             (apps_loading r) (installed_apps r) (mixins_settings r).
Definition set_apps_loading v (r : Registry) :=
  mkRegistry (plugins r) (plugins_inactive r) (plugin_modules r) (errors r) (is_loading r)
             v (installed_apps r) (mixins_settings r).
Definition set_installed_apps v (r : Registry) :=
  mkRegistry (plugins r) (plugins_inactive r) (plugin_modules r) (errors r) (is_loading r)
             (apps_loading r) v (mixins_settings r).
Definition set_mixins_settings v (r : Registry) :=
  mkRegistry (plugins r) (plugins_inactive r) (plugin_modules r) (errors r) (is_loading r)
             (apps_loading r) (installed_apps r) v.

Definition set_maintenance_mode v (h : Host H) :=
  mkHost v (INSTALLED_APPS h) (INTEGRATION_APPS_LOADED h) (db_ready h) (plugin_configs h)
         (schedules h) (frontendpatterns h) (global_front h) (url_cache_clears h) (apps h).
Definition set_INSTALLED_APPS v (h : Host H) :=
  mkHost (maintenance_mode h) v (INTEGRATION_APPS_LOADED h) (db_ready h) (plugin_configs h)
         (schedules h) (frontendpatterns h) (global_front h) (url_cache_clears h) (apps h).
Definition set_INTEGRATION_APPS_LOADED v (h : Host H) :=
  mkHost (maintenance_mode h) (INSTALLED_APPS h) v (db_ready h) (plugin_configs h)
         (schedules h) (frontendpatterns h) (global_front h) (url_cache_clears h) (apps h).
Definition set_plugin_configs v (h : Host H) :=
  mkHost (maintenance_mode h) (INSTALLED_APPS h) (INTEGRATION_APPS_LOADED h) (db_ready h) v
         (schedules h) (frontendpatterns h) (global_front h) (url_cache_clears h) (apps h).
Definition set_schedules v (h : Host H) :=
  mkHost (maintenance_mode h) (INSTALLED_APPS h) (INTEGRATION_APPS_LOADED h) (db_ready h)
         (plugin_configs h) v (frontendpatterns h) (global_front h) (url_cache_clears h) (apps h).
Definition set_urls v (h : Host H) :=
  mkHost (maintenance_mode h) (INSTALLED_APPS h) (INTEGRATION_APPS_LOADED h) (db_ready h)
         (plugin_configs h) (schedules h) v v (S (url_cache_clears h)) (apps h).
Definition set_apps (v : H) (h : Host H) :=
  mkHost (maintenance_mode h) (INSTALLED_APPS h) (INTEGRATION_APPS_LOADED h) (db_ready h)
         (plugin_configs h) (schedules h) (frontendpatterns h) (global_front h)
         (url_cache_clears h) v.
End Setters.

(** ** Computations: state, exceptions and the trace of events *)

Definition M (H A : Type) := State H -> Outcome A * State H * list Event.

Section Monad.
Context {H : Type}.

Definition ret {A} (a : A) : M H A := fun st => (Ok a, st, []).

Definition bind {A B} (m : M H A) (f : A -> M H B) : M H B :=
  fun st =>
    match m st with
    | (Ok a, st1, t1) => let '(o, st2, t2) := f a st1 in (o, st2, t1 ++ t2)
    | (Raise e, st1, t1) => (Raise e, st1, t1)
    end.

Definition raise {A} (e : Exn) : M H A := fun st => (Raise e, st, []).

Definition emit (e : Event) : M H unit := fun st => (Ok tt, st, [e]).

Definition gets {A} (f : State H -> A) : M H A := fun st => (Ok (f st), st, []).

Definition modify (f : State H -> State H) : M H unit := fun st => (Ok tt, f st, []).

(** [try: m except <exceptions selected by handler>: ...]; the handler
    returns [None] for an exception the clause does not catch. *)
Definition try_except {A} (m : M H A) (handler : Exn -> option (M H A)) : M H A :=
  fun st =>
    match m st with
    | (Ok a, st1, t1) => (Ok a, st1, t1)
    | (Raise e, st1, t1) =>
        match handler e with
        | Some h => let '(o, st2, t2) := h st1 in (o, st2, t1 ++ t2)
        | None => (Raise e, st1, t1)
        end
    end.

(** [for x in l: body x] *)
Fixpoint for_each {A} (l : list A) (body : A -> M H unit) : M H unit :=
  match l with
  | [] => ret tt
  | x :: r => bind (body x) (fun _ => for_each r body)
  end.

(** The run [r], after the events [t1]. *)
Definition after {A} (t1 : list Event) (r : Outcome A * State H * list Event)
  : Outcome A * State H * list Event :=
  let '(o, st, t2) := r in (o, st, t1 ++ t2).

(** Inversion of a run through [bind] and [try_except]. *)
Lemma bind_ok {A B} (m : M H A) (f : A -> M H B) st b st2 t :
  bind m f st = (Ok b, st2, t) ->
  exists a st1 t1 t2,
    m st = (Ok a, st1, t1) /\ f a st1 = (Ok b, st2, t2) /\ t = t1 ++ t2.
Proof.
  unfold bind. destruct (m st) as [[[a|e] st1] t1]; [|discriminate].
  destruct (f a st1) as [[o s2] t2] eqn:Hf. intros Heq; inversion Heq; subst.
  exists a, st1, t1, t2. auto.
Qed.

Lemma bind_raise {A B} (m : M H A) (f : A -> M H B) st e st2 t :
  bind m f st = (Raise e, st2, t) ->
  m st = (Raise e, st2, t) \/
  exists a st1 t1 t2,
    m st = (Ok a, st1, t1) /\ f a st1 = (Raise e, st2, t2) /\ t = t1 ++ t2.
Proof.
  unfold bind. destruct (m st) as [[[a|e'] st1] t1].
  - destruct (f a st1) as [[o s2] t2] eqn:Hf. intros Heq; inversion Heq; subst.
    right. exists a, st1, t1, t2. auto.
  - intros Heq; inversion Heq; subst. auto.
Qed.

Lemma bind_run_ok {A B} (m : M H A) (f : A -> M H B) st a st1 t1 :
  m st = (Ok a, st1, t1) -> bind m f st = after t1 (f a st1).
Proof. unfold bind, after. intros ->. reflexivity. Qed.

Lemma bind_run_raise {A B} (m : M H A) (f : A -> M H B) st e st1 t1 :
  m st = (Raise e, st1, t1) -> bind m f st = (Raise e, st1, t1).
Proof. unfold bind. intros ->. reflexivity. Qed.

Lemma try_except_ok {A} (m : M H A) handler st a st2 t :
  try_except m handler st = (Ok a, st2, t) ->
  m st = (Ok a, st2, t) \/
  exists e st1 t1 h t2,
    m st = (Raise e, st1, t1) /\ handler e = Some h /\
    h st1 = (Ok a, st2, t2) /\ t = t1 ++ t2.
Proof.
  unfold try_except. destruct (m st) as [[[a'|e] st1] t1].
  - intros Heq; inversion Heq; subst. auto.
  - destruct (handler e) as [h|] eqn:Hh; [|discriminate].
    destruct (h st1) as [[o s2] t2] eqn:Hr. intros Heq; inversion Heq; subst.
    right. exists e, st1, t1, h, t2. auto.
Qed.
End Monad.

Notation "x <- c1 ;; c2" := (bind c1 (fun x => c2))
  (at level 100, c1 at next level, right associativity).
Notation "c1 ;; c2" := (bind c1 (fun _ => c2))
  (at level 100, right associativity).

(** ** The registry *)

Section Registry.
Context {H : Type} {HA : HostApps H} (env : Env).

Definition mixin_enabled (plugin : PluginInstance) (key : string) : bool :=
  mem key (mixins plugin).

(** *** Collaborators: maintenance mode, the PluginConfig table, helpers *)

Definition get_maintenance_mode : M H bool :=
  gets (fun st => maintenance_mode (host st)).

Definition set_maintenance (v : bool) : M H unit :=
  modify (upd_host (set_maintenance_mode v)) ;; emit (EvMaintenance v).

Definition fresh_pk (t : list PluginConfig) : nat :=
  S (fold_right Nat.max 0 (map cfg_pk t)).

Definition config_matches (key name : string) (c : PluginConfig) : bool :=
  (cfg_key c =? key) && (cfg_name c =? name).

(** Modelled from the spec: plugin/models.py is not under src.  The store
    is [get_or_create(key, name)] over rows with a unique key; a lookup by
    key and name that finds nothing creates the row, which the unique key
    refuses when another row already has it. *)
Definition get_or_create (key name : string) : M H PluginConfig :=
  fun st =>
    let t := plugin_configs (host st) in
    if db_ready (host st) then
      match find (config_matches key name) t with
      | Some c => (Ok c, st, [])
      | None =>
          if existsb (fun c => cfg_key c =? key) t then (Raise IntegrityError, st, [])
          else
            let c := mkConfig (fresh_pk t) key name (config_default_active env) in
            (Ok c, upd_host (set_plugin_configs (t ++ [c])) st, [EvConfigCreate key])
      end
    else (Raise DbError, st, []).

Definition store_row (c r : PluginConfig) : PluginConfig :=
  if Nat.eqb (cfg_pk r) (cfg_pk c) then c else r.

(** Modelled from the spec: [save(config)] of the configuration store,
    here always called with no_reload=True. *)
Definition save_config (c : PluginConfig) : M H unit :=
  fun st =>
    if db_ready (host st) then
      (Ok tt,
       upd_host (set_plugin_configs (map (store_row c) (plugin_configs (host st)))) st,
       [EvConfigSave (cfg_key c) (cfg_active c)])
    else (Raise DbError, st, []).

(** Modelled from the spec: plugin/helpers.py is not under src.  [errors]
    maps a source to the message of its most recent error. *)
Definition log_plugin_error (path message : string) : M H unit :=
  modify (upd_reg (fun r => set_errors (dict_set path message (errors r)) r)).

(** Modelled from the spec: the classification point of plugin/helpers.py;
    [path] and [message] are what it derives from the exception. *)
Definition get_plugin_error (path message : string) (do_raise do_log : bool) : M H unit :=
  (if do_log then log_plugin_error path message else ret tt) ;;
  if do_raise then raise (IntegrationPluginError path message) else ret tt.

(** *** _clean_registry, _clean_installed_apps, _get_plugin_path *)

Definition _clean_registry : M H unit :=
  modify (upd_reg (fun r => set_plugins_inactive [] (set_plugins [] r))).

Definition _clean_installed_apps : M H unit :=
  fun st =>
    let cleaned :=
      fold_left (fun acc plugin => if mem plugin acc then remove_first plugin acc else acc)
                (installed_apps (reg st)) (INSTALLED_APPS (host st)) in
    (Ok tt,
     upd_reg (set_installed_apps []) (upd_host (set_INSTALLED_APPS cleaned) st),
     [EvCleanInstalledApps]).

Definition _get_plugin_path (plugin : PluginInstance) : string :=
  match rel_path plugin with
  | Some parts => String.concat "." parts
  | None => inst_name plugin
  end.

(** *** _init_plugins *)

Definition plug_key_of (plugin : PluginClass) : string :=
  let plug_name := PLUGIN_NAME plugin in
  slugify env
    match PLUGIN_SLUG plugin with
    | Some s => if truthy s then s else plug_name
    | None => plug_name
    end.

(** [disabled and (plugin.__name__ == disabled or plugin.__module__ == disabled)] *)
Definition is_blocked (disabled : option string) (plugin : PluginClass) : bool :=
  match disabled with
  | Some d => truthy d && ((cls_name plugin =? d) || (cls_module plugin =? d))
  | None => false
  end.

Definition config_is_active (c : option PluginConfig) : bool :=
  match c with Some c => cfg_active c | None => false end.

Definition deactivated (c : PluginConfig) : PluginConfig :=
  mkConfig (cfg_pk c) (cfg_key c) (cfg_name c) false.

Definition bound_instance (was_packaged : bool) (c : option PluginConfig) (i : PluginInstance)
  : PluginInstance :=
  mkInstance (slug i) (inst_name i) (rel_path i) (mixins i) (inst_settings i)
             (scheduled_tasks i) was_packaged
             (match c with Some c => Some (cfg_pk c) | None => pk i end).

Definition add_inactive (key : string) (c : option PluginConfig) : M H unit :=
  modify (upd_reg (fun r => set_plugins_inactive (dict_set key c (plugins_inactive r)) r)).

Definition add_plugin (i : PluginInstance) : M H unit :=
  modify (upd_reg (fun r => set_plugins (dict_set (slug i) i (plugins r)) r)).

(** The try block around get_or_create in _init_plugins: when the
    database is not accessible the error is raised again, unless tests
    are running, where the setting is None. *)
Definition get_db_setting (plug_key plug_name : string) : M H (option PluginConfig) :=
  try_except (c <- get_or_create plug_key plug_name ;; ret (Some c))
    (fun e => match e with
              | DbError => Some (if PLUGIN_TESTING env then ret None else raise DbError)
              | _ => None
              end).

(** The body of the loop of _init_plugins. *)
Definition init_plugin (disabled : option string) (plugin : PluginClass) : M H unit :=
  let was_packaged := cls_is_package plugin in
  let plug_name := PLUGIN_NAME plugin in
  let plug_key := plug_key_of plugin in
  plugin_db_setting <- get_db_setting plug_key plug_name ;;
  if PLUGIN_TESTING env || config_is_active plugin_db_setting then
    if is_blocked disabled plugin then
      quarantined <-
        (if negb (PLUGIN_TESTING env) then
           match plugin_db_setting with
           | Some c => save_config (deactivated c) ;; ret (Some (deactivated c))
           | None => raise AttributeError
           end
         else ret plugin_db_setting) ;;
      add_inactive plug_key quarantined
    else
      emit (EvInstantiate (cls_name plugin)) ;;
      match construct plugin with
      | InstRaises path message => get_plugin_error path message true true
      | InstOk i => add_plugin (bound_instance was_packaged plugin_db_setting i)
      end
  else add_inactive plug_key plugin_db_setting.

Definition _init_plugins (disabled : option string) : M H unit :=
  emit (EvInitPlugins disabled) ;;
  modules <- gets (fun st => plugin_modules (reg st)) ;;
  for_each modules (init_plugin disabled).
(** *** Capability activation: settings *)

Definition activate_integration_settings (plugins : dict PluginInstance) : M H unit :=
  modify (upd_reg (set_mixins_settings [])) ;;
  for_each plugins (fun '(slug, plugin) =>
    if mixin_enabled plugin "settings" then
      modify (upd_reg (fun r =>
        set_mixins_settings (dict_set slug (inst_settings plugin) (mixins_settings r)) r))
    else ret tt).

Definition deactivate_integration_settings : M H unit :=
  modify (upd_reg (set_mixins_settings [])) ;; emit EvSettingsCleared.

(** *** Capability activation: scheduled tasks *)

(** Modelled from the spec: the schedule mixin is not under src.  A task
    declared under [key] is registered with the scheduler under a name
    prefixed for the plugin system. *)
Definition get_task_name (plugin : PluginInstance) (key : string) : string :=
  "plugin." ++ slug plugin ++ "." ++ key.

Definition get_task_names (plugin : PluginInstance) : list string :=
  map (get_task_name plugin) (scheduled_tasks plugin).

Definition register_task (name : string) : M H unit :=
  fun st =>
    if mem name (schedules (host st)) then (Ok tt, st, [])
    else (Ok tt, upd_host (set_schedules (schedules (host st) ++ [name])) st,
          [EvTaskRegister name]).

(** Modelled from the spec: registers the declared tasks that are not yet
    scheduled; an unavailable scheduler is not fatal. *)
Definition register_tasks (plugin : PluginInstance) : M H unit :=
  ready <- gets (fun st => db_ready (host st)) ;;
  if ready then for_each (get_task_names plugin) register_task else ret tt.

(** Modelled from the spec: the persisted config of an instance, [None]
    when the store is unavailable. *)
Definition plugin_config (plugin : PluginInstance) : M H (option PluginConfig) :=
  try_except (c <- get_or_create (slug plugin) (inst_name plugin) ;; ret (Some c))
    (fun e => match e with DbError => Some (ret None) | _ => None end).

(** The loop of activate_integration_schedule that fills [task_keys]. *)
Fixpoint register_all (plugins : dict PluginInstance) (task_keys : list string)
  : M H (list string) :=
  match plugins with
  | [] => ret task_keys
  | (_, plugin) :: rest =>
      if mixin_enabled plugin "schedule" then
        config <- plugin_config plugin ;;
        if config_is_active config then
          register_tasks plugin ;;
          register_all rest (task_keys ++ get_task_names plugin)
        else register_all rest task_keys
      else register_all rest task_keys
  end.

(** A scheduled task that the reconciliation deletes. *)
Definition stale_task (task_keys : list string) (name : string) : bool :=
  istartswith "plugin." name && negb (mem name task_keys).

Definition remove_stale_tasks (task_keys : list string) : M H unit :=
  fun st =>
    if db_ready (host st) then
      let scheduled := schedules (host st) in
      (Ok tt,
       upd_host (set_schedules (filter (fun n => negb (stale_task task_keys n)) scheduled)) st,
       map EvTaskDelete (filter (stale_task task_keys) scheduled))
    else (Ok tt, st, []).

Definition activate_integration_schedule (plugins : dict PluginInstance) : M H unit :=
  task_keys <-
    (if PLUGIN_TESTING env || ENABLE_PLUGINS_SCHEDULE env then register_all plugins []
     else ret []) ;;
  remove_stale_tasks task_keys.

Definition deactivate_integration_schedule : M H unit := ret tt.

(** *** Capability activation: apps *)

Definition _try_reload (cmd : list string -> H -> option (string * string) * H)
           (args : list string) : M H unit :=
  fun st =>
    let '(r, a) := cmd args (apps (host st)) in
    let st1 := upd_host (set_apps a) st in
    match r with
    | None => (Ok tt, st1, [])
    | Some (path, message) => get_plugin_error path message true false st1
    end.

Definition _reload_apps (force_reload : bool) : M H unit :=
  modify (upd_reg (set_is_loading true)) ;;
  emit (EvIsLoading true) ;;
  installed <- gets (fun st => INSTALLED_APPS (host st)) ;;
  (if force_reload then
     modify (upd_host (fun h => set_apps (apps_reset (apps h)) h)) ;;
     emit EvAppsReset ;;
     emit (EvPopulate installed) ;;
     _try_reload apps_populate installed
   else
     emit (EvSetInstalledApps installed) ;;
     _try_reload apps_set_installed_apps installed) ;;
  modify (upd_reg (set_is_loading false)) ;;
  emit (EvIsLoading false).

(** [for x in l: ...] whose body may [break] (it then returns false). *)
Fixpoint for_each_break {A} (l : list A) (body : A -> M H bool) : M H unit :=
  match l with
  | [] => ret tt
  | x :: r => go_on <- body x ;; if go_on then for_each_break r body else ret tt
  end.

Definition reregister_app (plugin_path : string) : M H bool :=
  let app_name := last_component plugin_path in
  a <- gets (fun st => apps (host st)) ;;
  if get_app_config a app_name then
    (if models_module_set a app_name && Nat.eqb (models_count a app_name) 0 then
       modify (upd_host (fun h => set_apps (reload_models_module app_name (apps h)) h)) ;;
       emit (EvReloadModels app_name)
     else ret tt) ;;
    a <- gets (fun st => apps (host st)) ;;
    let model_not_reg :=
      existsb (fun model => negb (admin_is_registered a app_name model))
              (get_models a app_name) in
    (if model_not_reg && has_admin_module a app_name then
       modify (upd_host (fun h => set_apps (reload_admin_module app_name (apps h)) h)) ;;
       emit (EvReloadAdmin app_name)
     else ret tt) ;;
    ret true
  else ret false.

Definition _reregister_contrib_apps : M H unit :=
  paths <- gets (fun st => installed_apps (reg st)) ;;
  for_each_break paths reregister_app.

Definition replace_route (a : RouteEntry) : RouteEntry :=
  match app_name a with
  | Some n =>
      if n =? "admin" then mkRoute (Some "admin") "admin.site.urls"
      else if n =? "plugin" then mkRoute (Some "plugin") "get_plugin_urls()"
      else a
  | None => a
  end.

Definition _update_urls : M H unit :=
  modify (upd_host (fun h => set_urls (map replace_route (frontendpatterns h)) h)) ;;
  emit EvUpdateUrls.

(** The loop of activate_integration_app that extends INSTALLED_APPS. *)
Fixpoint install_apps (plugins : dict PluginInstance) (apps_changed : bool) : M H bool :=
  match plugins with
  | [] => ret apps_changed
  | (_, plugin) :: rest =>
      if mixin_enabled plugin "app" then
        let plugin_path := _get_plugin_path plugin in
        installed <- gets (fun st => INSTALLED_APPS (host st)) ;;
        if negb (mem plugin_path installed) then
          modify (upd_host (set_INSTALLED_APPS (installed ++ [plugin_path]))) ;;
          modify (upd_reg (fun r => set_installed_apps (installed_apps r ++ [plugin_path]) r)) ;;
          install_apps rest true
        else install_apps rest apps_changed
      else install_apps rest apps_changed
  end.

Definition activate_integration_app (plugins : dict PluginInstance) (force_reload : bool)
  : M H unit :=
  if PLUGIN_TESTING env || ENABLE_PLUGINS_APP env then
    apps_changed <- install_apps plugins false ;;
    if apps_changed || force_reload then
      first_load <- gets (fun st => apps_loading (reg st)) ;;
      (if first_load || force_reload then
         modify (upd_reg (set_apps_loading false)) ;;
         _reload_apps true
       else _reload_apps false) ;;
      _reregister_contrib_apps ;;
      _update_urls
    else ret tt
  else ret tt.

(** [admin.site.unregister(model)], which raises NotRegistered for a model
    that is not registered with the admin site. *)
Definition unregister_model (app_name model : string) : M H unit :=
  fun st =>
    match admin_unregister app_name model (apps (host st)) with
    | Some a => (Ok tt, upd_host (set_apps a) st, [EvAdminUnregister app_name model])
    | None => (Raise NotRegistered, st, [])
    end.

(** [apps.all_models[plugin_path].pop(model)]: the registry of models is
    indexed by the recorded path, and the pop raises KeyError when the
    model is not found under it. *)
Definition pop_model (plugin_path model : string) : M H unit :=
  fun st =>
    let '(found, a) := all_models_pop plugin_path model (apps (host st)) in
    let st1 := upd_host (set_apps a) st in
    if found then (Ok tt, st1, [EvModelPop plugin_path model])
    else (Raise KeyError, st1, []).

(** One turn of the loop of deactivate_integration_app; only the lookup
    of the app config is inside the try block that breaks the loop. *)
Definition deregister_app (plugin_path : string) : M H bool :=
  let app_name := last_component plugin_path in
  a <- gets (fun st => apps (host st)) ;;
  if get_app_config a app_name then
    let models := get_models a app_name in
    for_each models (unregister_model app_name) ;;
    for_each models (pop_model plugin_path) ;;
    a <- gets (fun st => apps (host st)) ;;
    (if negb (Nat.eqb (length models) 0) && all_models_contains a app_name then
       modify (upd_host (fun h => set_apps (all_models_pop_app app_name (apps h)) h)) ;;
       emit (EvRegistryPop app_name)
     else ret tt) ;;
    ret true
  else ret false.

Definition deactivate_integration_app : M H unit :=
  paths <- gets (fun st => installed_apps (reg st)) ;;
  for_each_break paths deregister_app ;;
  _clean_installed_apps ;;
  modify (upd_host (set_INTEGRATION_APPS_LOADED false)) ;;
  _reload_apps false ;;
  _update_urls.

(** *** _activate_plugins, _deactivate_plugins *)

Definition _activate_plugins (force_reload : bool) : M H unit :=
  plugins <- gets (fun st => plugins (reg st)) ;;
  activate_integration_settings plugins ;;
  activate_integration_schedule plugins ;;
  activate_integration_app plugins force_reload.

Definition _deactivate_plugins : M H unit :=
  deactivate_integration_app ;;
  deactivate_integration_schedule ;;
  deactivate_integration_settings.

(** *** load_plugins *)

(** How the while loop of load_plugins is left. *)
Inductive LoadExit :=
| Registered                 (* registered_sucessfull = True *)
| DbNotAccessible            (* break: database not accessible *)
| MaxRetries.                (* break: retry_counter <= 0 *)

(** What one turn of the loop decides. *)
Inductive Turn :=
| Leave (exit : LoadExit)
| Again (blocked_plugin : string).

(** The body of the while loop, run with the current [retry_counter] and
    [blocked_plugin]. *)
Definition load_turn (retry_counter : Z) (blocked_plugin : option string) : M H Turn :=
  try_except
    (_init_plugins blocked_plugin ;;
     _activate_plugins false ;;
     ret (Leave Registered))
    (fun e =>
       match e with
       | DbError => Some (ret (Leave DbNotAccessible))
       | IntegrationPluginError path message =>
           Some (log_plugin_error path message ;;
                 _clean_registry ;;
                 _clean_installed_apps ;;
                 _activate_plugins true ;;
                 if (retry_counter - 1 <=? 0)%Z then ret (Leave MaxRetries)
                 else ret (Again path))
       | _ => None
       end).

Lemma load_turn_again retry_counter blocked st path st1 t1 :
  load_turn retry_counter blocked st = (Ok (Again path), st1, t1) ->
  (0 < retry_counter - 1)%Z.
Proof.
  unfold load_turn. intros Hrun.
  apply try_except_ok in Hrun as [Hbody | (e & s & t & h & t2 & _ & Hh & Hrun & _)].
  - apply bind_ok in Hbody as (? & ? & ? & ? & _ & Hbody & _).
    apply bind_ok in Hbody as (? & ? & ? & ? & _ & Hbody & _).
    discriminate.
  - destruct e; try discriminate; inversion Hh; subst; clear Hh.
    + discriminate.
    + do 4 (apply bind_ok in Hrun as (? & ? & ? & ? & _ & Hrun & _)).
      destruct (Z.leb_spec (retry_counter - 1) 0); [discriminate | assumption].
Qed.

Definition inspect {A} (a : A) : {b : A | a = b} := exist _ a eq_refl.

(** The while loop.  [retry_counter] goes down by one at every turn that
    ends in a retry, and a retry needs it to stay positive. *)
Equations? load_loop (retry_counter : Z) (blocked_plugin : option string) (st : State H)
  : Outcome LoadExit * State H * list Event by wf (Z.to_nat retry_counter) lt :=
  load_loop retry_counter blocked_plugin st
    with inspect (load_turn retry_counter blocked_plugin st) := {
    | exist _ (Ok (Leave x), st1, t1) _ => (Ok x, st1, t1)
    | exist _ (Ok (Again path), st1, t1) Hturn =>
        after t1 (load_loop (retry_counter - 1) (Some path) st1)
    | exist _ (Raise e, st1, t1) _ => (Raise e, st1, t1) }.
Proof.
  apply load_turn_again in Hturn. lia.
Qed.

Definition load_plugins : M H unit :=
  _maintenance <- get_maintenance_mode ;;
  (if negb _maintenance then set_maintenance true else ret tt) ;;
  _ <- load_loop (PLUGIN_RETRY env) None ;;
  if negb _maintenance then set_maintenance false else ret tt.

(** *** unload_plugins, reload_plugins *)

Definition unload_plugins : M H unit :=
  _maintenance <- get_maintenance_mode ;;
  (if negb _maintenance then set_maintenance true else ret tt) ;;
  _clean_registry ;;
  _deactivate_plugins ;;
  if negb _maintenance then set_maintenance false else ret tt.

(** [with maintenance_mode_on(): body]: the previous value is put back
    when the block is left, also by an exception. *)
Definition with_maintenance_mode_on {A} (body : M H A) : M H A :=
  fun st =>
    let old := maintenance_mode (host st) in
    let '(_, st0, t0) := set_maintenance true st in
    let '(o, st1, t1) := body st0 in
    let '(_, st2, t2) := set_maintenance old st1 in
    (o, st2, t0 ++ t1 ++ t2).

Definition reload_plugins : M H unit :=
  loading <- gets (fun st => is_loading (reg st)) ;;
  if loading then ret tt
  else with_maintenance_mode_on (unload_plugins ;; load_plugins).

(** *** collect_plugins *)

Definition add_modules (found : list PluginClass) : M H unit :=
  modify (upd_reg (fun r => set_plugin_modules (plugin_modules r ++ found) r)).

Definition collect_dir (plugin : string) : M H unit :=
  match import_plugin_dir env plugin with
  | DirImportFails message => raise (ImportError message)
  | DirModules modules => add_modules modules
  end.

(** [plugin.is_package = True] *)
Definition packaged (c : PluginClass) : PluginClass :=
  mkClass (cls_name c) (cls_module c) (PLUGIN_NAME c) (PLUGIN_SLUG c) true (construct c).

Definition collect_entry (entry : EntryOutcome) : M H unit :=
  match entry with
  | EntryLoaded plugin => add_modules [packaged plugin]
  | EntryFails path message => get_plugin_error path message false true
  end.

Definition collect_plugins : M H unit :=
  modify (upd_reg (set_plugin_modules [])) ;;
  for_each (PLUGIN_DIRS env) collect_dir ;;
  if negb (PLUGIN_TESTING env) || (PLUGIN_TESTING env && PLUGIN_TESTING_SETUP env) then
    for_each (entry_points env) collect_entry
  else ret tt.

(** ** Properties *)

(** *** Frames: what a computation leaves related, and what it emits *)

(** A relation between the state before and after a run that composes. *)
Class Frame (R : State H -> State H -> Prop) := {
  frame_refl : forall st, R st st;
  frame_trans : forall a b c, R a b -> R b c -> R a c
}.

(** The projection [g] of the state is left as it was. *)
Definition same {B} (g : State H -> B) : State H -> State H -> Prop :=
  fun st st' => g st' = g st.

#[local] Instance same_Frame {B} (g : State H -> B) : Frame (same g).
Proof. split; unfold same; intros; congruence. Qed.

Definition both (R1 R2 : State H -> State H -> Prop) : State H -> State H -> Prop :=
  fun st st' => R1 st st' /\ R2 st st'.

#[local] Instance both_Frame R1 R2 `{Frame R1} `{Frame R2} : Frame (both R1 R2).
Proof.
  split; unfold both.
  - intros st; split; apply frame_refl.
  - intros a b c [] []; split; eapply frame_trans; eauto.
Qed.

Definition any_event : Event -> Prop := fun _ => True.
Definition any_exn : Exn -> Prop := fun _ => True.

(** [keeps R P E m]: every run of [m] takes a state to an [R]-related one
    and emits only events satisfying [P]; an exception it raises
    satisfies [E]. *)
Definition keeps {A} (R : State H -> State H -> Prop) (P : Event -> Prop) (E : Exn -> Prop)
           (m : M H A) : Prop :=
  forall st o st' t,
    m st = (o, st', t) -> R st st' /\ Forall P t /\ (forall e, o = Raise e -> E e).

Section Keeps.
Context (R : State H -> State H -> Prop) {FR : Frame R}.
Variable P : Event -> Prop.
Variable E : Exn -> Prop.

Lemma keeps_ret {A} (a : A) : keeps R P E (ret a).
Proof.
  intros st o st' t Heq. inversion Heq; subst.
  split; [apply frame_refl | split; [auto | discriminate]].
Qed.

Lemma keeps_raise {A} e : E e -> keeps R P E (raise (A := A) e).
Proof.
  intros He st o st' t Heq. inversion Heq; subst.
  split; [apply frame_refl | split; [auto | congruence]].
Qed.

Lemma keeps_gets {A} (g : State H -> A) : keeps R P E (gets g).
Proof.
  intros st o st' t Heq. inversion Heq; subst.
  split; [apply frame_refl | split; [auto | discriminate]].
Qed.

Lemma keeps_emit e : P e -> keeps R P E (emit e).
Proof.
  intros He st o st' t Heq. inversion Heq; subst.
  split; [apply frame_refl | split; [auto | discriminate]].
Qed.

Lemma keeps_modify g : (forall st, R st (g st)) -> keeps R P E (modify g).
Proof.
  intros Hg st o st' t Heq. inversion Heq; subst.
  split; [auto | split; [auto | discriminate]].
Qed.

Lemma keeps_bind {A B} (m : M H A) (k : A -> M H B) :
  keeps R P E m -> (forall a, keeps R P E (k a)) -> keeps R P E (bind m k).
Proof.
  intros Hm Hk st o st' t. unfold bind.
  destruct (m st) as [[[a|e] st1] t1] eqn:Hrun;
    destruct (Hm _ _ _ _ Hrun) as (HR & HP & HE).
  - destruct (k a st1) as [[o2 st2] t2] eqn:Hrun2.
    destruct (Hk a _ _ _ _ Hrun2) as (HR2 & HP2 & HE2).
    intros Heq; inversion Heq; subst.
    split; [eapply frame_trans; eauto | split; [apply Forall_app; auto | auto]].
  - intros Heq; inversion Heq; subst. split; [auto | split; [auto|]].
    intros e0 He0. inversion He0; subst. apply HE. reflexivity.
Qed.

Lemma keeps_try_except {A} (m : M H A) handler :
  keeps R P any_exn m ->
  (forall e h, handler e = Some h -> keeps R P E h) ->
  (forall e, handler e = None -> E e) ->
  keeps R P E (try_except m handler).
Proof.
  intros Hm Hh Hnone st o st' t. unfold try_except.
  destruct (m st) as [[[a|e] st1] t1] eqn:Hrun;
    destruct (Hm _ _ _ _ Hrun) as (HR & HP & _).
  - intros Heq; inversion Heq; subst. split; [auto | split; [auto | discriminate]].
  - destruct (handler e) as [h|] eqn:He.
    + destruct (h st1) as [[o2 st2] t2] eqn:Hrun2.
      destruct (Hh _ _ He _ _ _ _ Hrun2) as (HR2 & HP2 & HE2).
      intros Heq; inversion Heq; subst.
      split; [eapply frame_trans; eauto | split; [apply Forall_app; auto | auto]].
    + intros Heq; inversion Heq; subst.
      split; [auto | split; [auto |]]. intros e' He'. inversion He'; subst. auto.
Qed.

Lemma keeps_for_each {A} (l : list A) (body : A -> M H unit) :
  (forall x, In x l -> keeps R P E (body x)) -> keeps R P E (for_each l body).
Proof.
  induction l as [|x l IH]; intros Hb; simpl.
  - apply keeps_ret.
  - apply keeps_bind; [apply Hb; left; reflexivity|].
    intros _. apply IH. intros y Hy. apply Hb. right. assumption.
Qed.

Lemma keeps_for_each_break {A} (l : list A) (body : A -> M H bool) :
  (forall x, keeps R P E (body x)) -> keeps R P E (for_each_break l body).
Proof.
  intros Hb. induction l as [|x l IH]; simpl.
  - apply keeps_ret.
  - apply keeps_bind; [apply Hb|]. intros []; [apply IH | apply keeps_ret].
Qed.

Lemma keeps_after {A} (t1 : list Event) (r : Outcome A * State H * list Event) st0 st1 :
  R st0 st1 -> Forall P t1 ->
  (forall o st' t, r = (o, st', t) ->
     R st1 st' /\ Forall P t /\ (forall e, o = Raise e -> E e)) ->
  forall o st' t, after t1 r = (o, st', t) ->
     R st0 st' /\ Forall P t /\ (forall e, o = Raise e -> E e).
Proof.
  intros HR HP Hr o st' t. destruct r as [[o2 st2] t2]. simpl.
  destruct (Hr _ _ _ eq_refl) as (HR2 & HP2 & HE2).
  intros Heq; inversion Heq; subst.
  split; [eapply frame_trans; eauto | split; [apply Forall_app; auto | auto]].
Qed.
End Keeps.

(** A weaker relation, more events and more exceptions are kept too. *)
Lemma keeps_weaken {A} (R R' : State H -> State H -> Prop) (P P' : Event -> Prop)
      (E E' : Exn -> Prop) (m : M H A) :
  (forall a b, R a b -> R' a b) -> (forall e, P e -> P' e) -> (forall e, E e -> E' e) ->
  keeps R P E m -> keeps R' P' E' m.
Proof.
  intros HR HP HE Hm st o st' t Hrun. destruct (Hm _ _ _ _ Hrun) as (? & ? & ?).
  split; [auto | split; [eapply Forall_impl; eauto | auto]].
Qed.

(** A computation written as a function of the state: run it and look. *)
Ltac keeps_side :=
  try solve [ intros; hnf; reflexivity
            | intros; hnf; simpl; auto
            | intros; hnf; split; hnf; simpl; auto
            | intros; simpl; auto; try discriminate; try congruence ].

Ltac keeps_step :=
  match goal with
  | |- Frame _ => solve [typeclasses eauto]
  | |- (match ?e with _ => _ end = Some _) -> _ =>
      let Hh := fresh "Hh" in
      intros Hh; destruct e; try discriminate Hh; injection Hh as <-
  | |- (match ?e with _ => _ end = None) -> _ =>
      let Hh := fresh "Hh" in
      intros Hh; destruct e; try discriminate Hh; keeps_side
  | |- forall _, _ => intro
  | |- keeps _ _ _ (ret _) => apply keeps_ret
  | |- keeps _ _ _ (raise _) => apply keeps_raise; keeps_side
  | |- keeps _ _ _ (gets _) => apply keeps_gets
  | |- keeps _ _ _ (emit _) => apply keeps_emit; keeps_side
  | |- keeps _ _ _ (modify _) => apply keeps_modify; keeps_side
  | |- keeps _ _ _ (bind _ _) => apply keeps_bind
  | |- keeps _ _ _ (for_each _ _) => apply keeps_for_each
  | |- keeps _ _ _ (for_each_break _ _) => apply keeps_for_each_break
  | |- keeps _ _ _ (try_except _ _) => apply keeps_try_except
  | |- keeps _ _ _ (if ?b then _ else _) => destruct b
  | |- keeps _ _ _ (match ?x with _ => _ end) => destruct x
  end.

Ltac keeps_tac := repeat keeps_step.

(** *** Dictionaries and lists *)

Lemma dict_set_in_keys {V} k (v : V) d : In k (keys (dict_set k v d)).
Proof.
  induction d as [|[k' v'] d IH]; simpl; [auto|].
  destruct (String.eqb_spec k k'); simpl; auto.
Qed.

Lemma dict_set_keys_incl {V} k (v : V) d : incl (keys d) (keys (dict_set k v d)).
Proof.
  induction d as [|[k' v'] d IH]; simpl; intros x Hx; [contradiction|].
  destruct (String.eqb_spec k k'); simpl in *; subst; intuition.
Qed.

Lemma dict_set_keys_inv {V} k (v : V) d x :
  In x (keys (dict_set k v d)) -> x = k \/ In x (keys d).
Proof.
  induction d as [|[k' v'] d IH]; simpl.
  - intuition.
  - destruct (String.eqb_spec k k'); simpl; subst; intuition.
Qed.

Lemma dict_set_fresh {V} k (v : V) d :
  ~ In k (keys d) -> dict_set k v d = d ++ [(k, v)].
Proof.
  induction d as [|[k' v'] d IH]; simpl; intros Hk; [reflexivity|].
  destruct (String.eqb_spec k k'); [subst; exfalso; auto|].
  rewrite IH; auto.
Qed.

Lemma mem_In s l : mem s l = true <-> In s l.
Proof.
  unfold mem. rewrite existsb_exists. split.
  - intros (x & Hx & Heq). apply String.eqb_eq in Heq. subst. assumption.
  - intros Hs. exists s. split; [assumption | apply String.eqb_refl].
Qed.

Lemma mem_false s l : mem s l = false <-> ~ In s l.
Proof.
  rewrite <- mem_In. destruct (mem s l); split; intros; congruence.
Qed.

(** *** The reentrancy guard of reload_plugins *)

(** C4.  While [is_loading] is set, [reload_plugins] returns at once: no
    exception, no event, and the registry and the host are exactly as
    they were. *)
Theorem reload_plugins_while_loading (st : State H) :
  is_loading (reg st) = true ->
  reload_plugins st = (Ok tt, st, []).
Proof.
  intros Hflag. unfold reload_plugins, bind, gets. rewrite Hflag. reflexivity.
Qed.

(** *** What initialisation and activation leave alone *)

(** The events of a pass of _init_plugins. *)
Definition init_event (e : Event) : Prop :=
  match e with
  | EvInitPlugins _ | EvInstantiate _ | EvConfigCreate _ | EvConfigSave _ _ => True
  | _ => False
  end.

(** The events of a pass of _activate_plugins. *)
Definition activation_event (e : Event) : Prop :=
  match e with
  | EvConfigCreate _ | EvTaskRegister _ | EvTaskDelete _ | EvIsLoading _ | EvAppsReset
  | EvPopulate _ | EvSetInstalledApps _ | EvReloadModels _ | EvReloadAdmin _
  | EvUpdateUrls => True
  | _ => False
  end.

(** _init_plugins touches the two maps, the error log and the
    PluginConfig table, and nothing else. *)
Definition init_frame : State H -> State H -> Prop :=
  same (fun st => (installed_apps (reg st), INSTALLED_APPS (host st), is_loading (reg st),
                   apps_loading (reg st), maintenance_mode (host st), db_ready (host st),
                   plugin_modules (reg st), mixins_settings (reg st), schedules (host st),
                   apps (host st), frontendpatterns (host st), global_front (host st),
                   INTEGRATION_APPS_LOADED (host st))).

#[local] Instance init_frame_Frame : Frame init_frame.
Proof. unfold init_frame. typeclasses eauto. Qed.

(** _activate_plugins leaves the two maps, the discovery list, the error
    log, the maintenance flag and the database availability alone. *)
Definition act_frame : State H -> State H -> Prop :=
  same (fun st => (plugins (reg st), plugins_inactive (reg st), plugin_modules (reg st),
                   errors (reg st), maintenance_mode (host st), db_ready (host st))).

#[local] Instance act_frame_Frame : Frame act_frame.
Proof. unfold act_frame. typeclasses eauto. Qed.

(** The computations written as functions of the state keep whatever
    their single update keeps. *)
Section Primitives.
Context (R : State H -> State H -> Prop) {FR : Frame R}.
Variable P : Event -> Prop.
Variable E : Exn -> Prop.

Ltac prim_done HR :=
  split; [first [apply frame_refl | apply HR]
         | split; [repeat constructor; auto
                  | let e := fresh in let He := fresh in
                    intros e He; inversion He; subst; auto]].

Lemma get_or_create_keeps key name :
  (forall st v, R st (upd_host (set_plugin_configs v) st)) ->
  P (EvConfigCreate key) -> E IntegrityError -> E DbError ->
  keeps R P E (get_or_create key name).
Proof.
  intros HR HP HE1 HE2 st o st' t Heq. unfold get_or_create in Heq.
  destruct (db_ready (host st)); [destruct (find _ _); [|destruct (existsb _ _)]|];
    inversion Heq; subst; clear Heq; prim_done HR.
Qed.

Lemma save_config_keeps c :
  (forall st v, R st (upd_host (set_plugin_configs v) st)) ->
  P (EvConfigSave (cfg_key c) (cfg_active c)) -> E DbError ->
  keeps R P E (save_config c).
Proof.
  intros HR HP HE st o st' t Heq. unfold save_config in Heq.
  destruct (db_ready (host st)); inversion Heq; subst; clear Heq; prim_done HR.
Qed.

Lemma register_task_keeps name :
  (forall st v, R st (upd_host (set_schedules v) st)) ->
  P (EvTaskRegister name) ->
  keeps R P E (register_task name).
Proof.
  intros HR HP st o st' t Heq. unfold register_task in Heq.
  destruct (mem name _); inversion Heq; subst; clear Heq; prim_done HR.
Qed.

Lemma remove_stale_tasks_keeps task_keys :
  (forall st v, R st (upd_host (set_schedules v) st)) ->
  (forall n, P (EvTaskDelete n)) ->
  keeps R P E (remove_stale_tasks task_keys).
Proof.
  intros HR HP st o st' t Heq. unfold remove_stale_tasks in Heq.
  destruct (db_ready (host st)); inversion Heq; subst; clear Heq;
    (split; [first [apply frame_refl | apply HR] | split; [|discriminate]]); auto.
  apply Forall_forall. intros e He. apply in_map_iff in He as (n & <- & _). apply HP.
Qed.

Lemma try_reload_keeps cmd args :
  (forall st v, R st (upd_host (set_apps v) st)) ->
  (forall p m, E (IntegrationPluginError p m)) ->
  keeps R P E (_try_reload cmd args).
Proof.
  intros HR HE st o st' t Heq. unfold _try_reload, get_plugin_error, bind, ret, raise in Heq.
  destruct (cmd args (apps (host st))) as [[[p m]|] a]; inversion Heq; subst; clear Heq;
    prim_done HR.
Qed.

Lemma unregister_model_keeps app_name model :
  (forall st v, R st (upd_host (set_apps v) st)) ->
  P (EvAdminUnregister app_name model) -> E NotRegistered ->
  keeps R P E (unregister_model app_name model).
Proof.
  intros HR HP HE st o st' t Heq. unfold unregister_model in Heq.
  destruct (admin_unregister _ _ _); inversion Heq; subst; clear Heq; prim_done HR.
Qed.

Lemma pop_model_keeps plugin_path model :
  (forall st v, R st (upd_host (set_apps v) st)) ->
  P (EvModelPop plugin_path model) -> E KeyError ->
  keeps R P E (pop_model plugin_path model).
Proof.
  intros HR HP HE st o st' t Heq. unfold pop_model in Heq.
  destruct (all_models_pop _ _ _) as [[|] a]; inversion Heq; subst; clear Heq;
    prim_done HR.
Qed.

Lemma clean_installed_apps_keeps :
  (forall st v w, R st (upd_reg (set_installed_apps v) (upd_host (set_INSTALLED_APPS w) st))) ->
  P EvCleanInstalledApps ->
  keeps R P E _clean_installed_apps.
Proof.
  intros HR HP st o st' t Heq. unfold _clean_installed_apps in Heq.
  inversion Heq; subst; clear Heq. prim_done HR.
Qed.
End Primitives.

Ltac frame_step :=
  match goal with
  | |- keeps _ _ _ (get_or_create _ _) => apply get_or_create_keeps; keeps_side
  | |- keeps _ _ _ (save_config _) => apply save_config_keeps; keeps_side
  | |- keeps _ _ _ (register_task _) => apply register_task_keeps; keeps_side
  | |- keeps _ _ _ (remove_stale_tasks _) => apply remove_stale_tasks_keeps; keeps_side
  | |- keeps _ _ _ (_try_reload _ _) => apply try_reload_keeps; keeps_side
  | |- keeps _ _ _ (unregister_model _ _) => apply unregister_model_keeps; keeps_side
  | |- keeps _ _ _ (pop_model _ _) => apply pop_model_keeps; keeps_side
  | |- keeps _ _ _ _clean_installed_apps => apply clean_installed_apps_keeps; keeps_side
  | _ => keeps_step
  end.

Ltac frame_tac := repeat frame_step.

Lemma init_plugin_frame disabled plugin :
  keeps init_frame init_event any_exn (init_plugin disabled plugin).
Proof.
  unfold init_plugin, get_db_setting, get_plugin_error, log_plugin_error, add_inactive,
    add_plugin.
  frame_tac.
Qed.

Lemma init_plugins_frame disabled : keeps init_frame init_event any_exn (_init_plugins disabled).
Proof. unfold _init_plugins. frame_tac. apply init_plugin_frame. Qed.

Lemma register_all_act_frame plugins : forall task_keys,
  keeps act_frame activation_event any_exn (register_all plugins task_keys).
Proof.
  induction plugins as [|[k plugin] plugins IH]; intros task_keys; simpl.
  - frame_tac.
  - unfold plugin_config, register_tasks. frame_tac; auto.
Qed.

Lemma reload_apps_act_frame force : keeps act_frame activation_event any_exn (_reload_apps force).
Proof. unfold _reload_apps. frame_tac. Qed.

Lemma install_apps_act_frame plugins : forall changed,
  keeps act_frame activation_event any_exn (install_apps plugins changed).
Proof.
  induction plugins as [|[k plugin] plugins IH]; intros changed; simpl; frame_tac; auto.
Qed.

Lemma activate_plugins_frame force : keeps act_frame activation_event any_exn (_activate_plugins force).
Proof.
  unfold _activate_plugins, activate_integration_settings, activate_integration_schedule,
    activate_integration_app, _reregister_contrib_apps, reregister_app, _update_urls.
  frame_tac; auto using register_all_act_frame, install_apps_act_frame, reload_apps_act_frame.
Qed.

(** *** Quarantine while tests are running *)

(** The PluginConfig table only gains rows, each with the default flag. *)
Definition table_grows (st st' : State H) : Prop :=
  exists new,
    plugin_configs (host st') = plugin_configs (host st) ++ new /\
    Forall (fun c => cfg_active c = config_default_active env) new.

#[local] Instance table_grows_Frame : Frame table_grows.
Proof.
  split; unfold table_grows.
  - intros st. exists []. rewrite app_nil_r. auto.
  - intros a b c (n1 & H1 & F1) (n2 & H2 & F2). exists (n1 ++ n2).
    rewrite H2, H1, app_assoc. split; [reflexivity | apply Forall_app; auto].
Qed.


(** The inactive map only gains keys. *)
Definition inactive_grows (st st' : State H) : Prop :=
  incl (keys (plugins_inactive (reg st))) (keys (plugins_inactive (reg st'))).

#[local] Instance inactive_grows_Frame : Frame inactive_grows.
Proof.
  split; unfold inactive_grows.
  - intros st. apply incl_refl.
  - intros a b c. apply incl_tran.
Qed.


Definition quarantine_frame := both table_grows inactive_grows.

#[local] Instance quarantine_Frame : Frame quarantine_frame.
Proof. unfold quarantine_frame. apply both_Frame; typeclasses eauto. Qed.














(** The active map only gains keys. *)
Definition active_grows (st st' : State H) : Prop :=
  incl (keys (plugins (reg st))) (keys (plugins (reg st'))).

#[local] Instance active_grows_Frame : Frame active_grows.
Proof.
  split; unfold active_grows.
  - intros st. apply incl_refl.
  - intros a b c. apply incl_tran.
Qed.




(** *** Reconciliation of the scheduled tasks *)











(** *** The guard flag during a load *)

Definition not_flag_event (e : Event) : Prop :=
  match e with EvIsLoading _ => False | _ => True end.

Definition flag_frame : State H -> State H -> Prop := same (fun st => is_loading (reg st)).

#[local] Instance flag_frame_Frame : Frame flag_frame.
Proof. unfold flag_frame. typeclasses eauto. Qed.





(** A successful _reload_apps sets the flag first and clears it last. *)
Lemma reload_apps_brackets force st st' t :
  _reload_apps force st = (Ok tt, st', t) ->
  is_loading (reg st') = false /\
  exists mid, t = EvIsLoading true :: mid ++ [EvIsLoading false] /\
              Forall not_flag_event mid /\
              (force = false -> mid = [EvSetInstalledApps (INSTALLED_APPS (host st))]).
Proof.
  unfold _reload_apps, bind, modify, emit, gets, _try_reload, get_plugin_error, ret, raise.
  simpl. destruct force; simpl.
  - destruct (apps_populate _ _) as [[[p m]|] a]; simpl; intros Heq; inversion Heq; subst.
    split; [reflexivity|].
    exists [EvAppsReset; EvPopulate (INSTALLED_APPS (host st))].
    split; [reflexivity|]. split; [repeat constructor | discriminate].
  - destruct (apps_set_installed_apps _ _) as [[[p m]|] a]; simpl; intros Heq;
      inversion Heq; subst.
    split; [reflexivity|].
    exists [EvSetInstalledApps (INSTALLED_APPS (host st))].
    split; [reflexivity|]. split; [repeat constructor | reflexivity].
Qed.

(** *** The order of a deactivation pass *)

(** The events of the loop that unregisters the models of the installed
    apps. *)
Definition deregister_event (e : Event) : Prop :=
  match e with
  | EvAdminUnregister _ _ | EvModelPop _ _ | EvRegistryPop _ => True
  | _ => False
  end.

Definition deregister_frame : State H -> State H -> Prop :=
  same (fun st => (reg st, schedules (host st), INSTALLED_APPS (host st))).

#[local] Instance deregister_frame_Frame : Frame deregister_frame.
Proof. unfold deregister_frame. typeclasses eauto. Qed.

Lemma deregister_apps_frame paths :
  keeps deregister_frame deregister_event any_exn (for_each_break paths deregister_app).
Proof. unfold deregister_app. frame_tac. Qed.









(** *** The retry loop *)

Lemma load_loop_eq retry_counter blocked st :
  load_loop retry_counter blocked st =
  match load_turn retry_counter blocked st with
  | (Ok (Leave x), st1, t1) => (Ok x, st1, t1)
  | (Ok (Again path), st1, t1) => after t1 (load_loop (retry_counter - 1) (Some path) st1)
  | (Raise e, st1, t1) => (Raise e, st1, t1)
  end.
Proof.
  simp load_loop. unfold inspect.
  assert (G : forall r (Hr : load_turn retry_counter blocked st = r),
             load_loop_unfold_clause_1 retry_counter blocked st (exist _ r Hr) =
             match r with
             | (Ok (Leave x), st1, t1) => (Ok x, st1, t1)
             | (Ok (Again path), st1, t1) =>
                 after t1 (load_loop (retry_counter - 1) (Some path) st1)
             | (Raise e, st1, t1) => (Raise e, st1, t1)
             end).
  { intros [[[[x|path]|e] st1] t1] Hr; simp load_loop; reflexivity. }
  apply G.
Qed.

(** Induction along the turns of the loop. *)
Lemma load_loop_induction
      (Q : Z -> option string -> State H -> Outcome LoadExit * State H * list Event -> Prop) :
  (forall rc b st x st1 t1,
      load_turn rc b st = (Ok (Leave x), st1, t1) -> Q rc b st (Ok x, st1, t1)) ->
  (forall rc b st e st1 t1,
      load_turn rc b st = (Raise e, st1, t1) -> Q rc b st (Raise e, st1, t1)) ->
  (forall rc b st path st1 t1,
      load_turn rc b st = (Ok (Again path), st1, t1) ->
      (0 < rc - 1)%Z ->
      Q (rc - 1)%Z (Some path) st1 (load_loop (rc - 1) (Some path) st1) ->
      Q rc b st (after t1 (load_loop (rc - 1) (Some path) st1))) ->
  forall rc b st, Q rc b st (load_loop rc b st).
Proof.
  intros Hleave Hraise Hagain rc.
  remember (Z.to_nat rc) as n eqn:Hn. revert rc Hn.
  induction n as [n IH] using lt_wf_ind. intros rc Hn b st.
  rewrite load_loop_eq.
  destruct (load_turn rc b st) as [[[[x|path]|e] st1] t1] eqn:Hturn; auto.
  pose proof (load_turn_again _ _ _ Hturn) as Hpos.
  apply Hagain; auto.
  apply (IH (Z.to_nat (rc - 1))); [lia | reflexivity].
Qed.

(** What every part of a turn keeps, the turn keeps; the exceptions that
    leave it are those of the handler and those it does not catch. *)
Lemma load_turn_keeps R `{Frame R} P E retry_counter blocked :
  (forall d, keeps R P any_exn (_init_plugins d)) ->
  keeps R P any_exn (_activate_plugins false) ->
  keeps R P E (_activate_plugins true) ->
  (forall p m, keeps R P E (log_plugin_error p m)) ->
  keeps R P E _clean_registry ->
  keeps R P E _clean_installed_apps ->
  E IntegrityError -> E AttributeError -> (forall m, E (ImportError m)) ->
  E NotRegistered -> E KeyError ->
  keeps R P E (load_turn retry_counter blocked).
Proof.
  intros Hinit Hact Hact2 Hlog Hreg Hclean HE1 HE2 HE3 HE4 HE5. unfold load_turn.
  keeps_tac; auto.
Qed.

Lemma load_loop_keeps R `{Frame R} P E :
  (forall rc b, keeps R P E (load_turn rc b)) ->
  forall rc b, keeps R P E (load_loop rc b).
Proof.
  intros Hturn rc b st. unfold keeps in *.
  apply (load_loop_induction
           (fun rc b st r => forall o st' t, r = (o, st', t) ->
              R st st' /\ Forall P t /\ (forall e, o = Raise e -> E e))).
  - intros ? ? ? ? ? ? Hrun o st' t Heq. inversion Heq; subst.
    destruct (Hturn _ _ _ _ _ _ Hrun) as (? & ? & ?).
    split; [auto | split; [auto | discriminate]].
  - intros ? ? ? ? ? ? Hrun o st' t Heq. inversion Heq; subst.
    destruct (Hturn _ _ _ _ _ _ Hrun) as (? & ? & HE).
    split; [auto | split; [auto|]].
    intros e0 He0. inversion He0; subst. apply HE. reflexivity.
  - intros ? ? ? ? ? ? Hrun _ IH. destruct (Hturn _ _ _ _ _ _ Hrun) as (? & ? & _).
    apply keeps_after with (st1 := st1); auto.
Qed.

(** Activation with an empty active map installs no app. *)
Lemma activate_plugins_run force st :
  _activate_plugins force st =
  (activate_integration_settings (plugins (reg st)) ;;
   activate_integration_schedule (plugins (reg st)) ;;
   activate_integration_app (plugins (reg st)) force) st.
Proof.
  unfold _activate_plugins. unfold bind at 1. unfold gets.
  destruct (bind _ _ st) as [[o s] t]. reflexivity.
Qed.

Definition installed_frame : State H -> State H -> Prop :=
  same (fun st => (installed_apps (reg st), INSTALLED_APPS (host st))).

#[local] Instance installed_frame_Frame : Frame installed_frame.
Proof. unfold installed_frame. typeclasses eauto. Qed.

Lemma register_all_installed plugins : forall task_keys,
  keeps installed_frame any_event any_exn (register_all plugins task_keys).
Proof.
  induction plugins as [|[k plugin] plugins IH]; intros task_keys; simpl.
  - frame_tac.
  - unfold plugin_config, register_tasks. frame_tac; auto.
Qed.

Lemma activate_nothing_installed force st o st' t :
  plugins (reg st) = [] ->
  _activate_plugins force st = (o, st', t) ->
  installed_apps (reg st') = installed_apps (reg st) /\
  INSTALLED_APPS (host st') = INSTALLED_APPS (host st).
Proof.
  intros Hempty. rewrite activate_plugins_run, Hempty. intros Hrun.
  assert (Hk : keeps installed_frame any_event any_exn
                 (activate_integration_settings [] ;;
                  activate_integration_schedule [] ;;
                  activate_integration_app [] force)).
  { unfold activate_integration_settings, activate_integration_schedule,
      activate_integration_app, _reload_apps, _reregister_contrib_apps, reregister_app,
      _update_urls.
    simpl. frame_tac. }
  destruct (Hk _ _ _ _ Hrun) as [Hsame _]. inversion Hsame. auto.
Qed.

(** A turn that gives up has gone through the handler: the registry was
    cleaned and re-activated with nothing in it. *)
Lemma load_turn_max_retries retry_counter blocked st st' t :
  load_turn retry_counter blocked st = (Ok (Leave MaxRetries), st', t) ->
  plugins (reg st') = [] /\ plugins_inactive (reg st') = [] /\
  installed_apps (reg st') = [].
Proof.
  unfold load_turn. intros Hrun.
  apply try_except_ok in Hrun as [Hbody | (e & s & t1 & h & t2 & _ & Hh & Hrun & _)].
  - apply bind_ok in Hbody as (? & ? & ? & ? & _ & Hbody & _).
    apply bind_ok in Hbody as (? & ? & ? & ? & _ & Hbody & _).
    discriminate.
  - destruct e; try discriminate; inversion Hh; subst; clear Hh; [discriminate|].
    apply bind_ok in Hrun as ([] & s1 & ? & ? & Hlog & Hrun & _).
    apply bind_ok in Hrun as ([] & s2 & ? & ? & Hreg & Hrun & _).
    apply bind_ok in Hrun as ([] & s3 & ? & ? & Hclean & Hrun & _).
    apply bind_ok in Hrun as ([] & s4 & ? & ? & Hact & Hrun & _).
    inversion Hlog; subst; clear Hlog. inversion Hreg; subst; clear Hreg.
    inversion Hclean; subst; clear Hclean.
    destruct (activate_plugins_frame _ _ Hact) as [Hsame _].
    pose proof (fun Hp => activate_nothing_installed true _ Hp Hact) as Hia.
    specialize (Hia eq_refl). destruct Hia as [Hia _].
    inversion Hsame as [[Hp Hi Hm He Hmm Hdb]].
    destruct (retry_counter - 1 <=? 0)%Z; inversion Hrun; subst.
    simpl in *. auto.
Qed.

(** The state in which the while loop of load_plugins starts: the one at
    the call, in maintenance mode. *)
Definition load_entry (st : State H) : State H :=
  if maintenance_mode (host st) then st else upd_host (set_maintenance_mode true) st.

(** How the loop of a call of load_plugins ends, if it does not raise. *)
Definition load_exit (st : State H) : option LoadExit :=
  match load_loop (PLUGIN_RETRY env) None (load_entry st) with
  | (Ok x, _, _) => Some x
  | (Raise _, _, _) => None
  end.

Lemma load_plugins_run st :
  load_plugins st =
  let pre := if maintenance_mode (host st) then [] else [EvMaintenance true] in
  match load_loop (PLUGIN_RETRY env) None (load_entry st) with
  | (Ok _, st1, t1) =>
      if maintenance_mode (host st) then (Ok tt, st1, pre ++ t1 ++ [])
      else (Ok tt, upd_host (set_maintenance_mode false) st1,
            pre ++ t1 ++ [EvMaintenance false])
  | (Raise e, st1, t1) => (Raise e, st1, pre ++ t1)
  end.
Proof.
  unfold load_plugins, load_entry, bind, get_maintenance_mode, gets, set_maintenance,
    modify, emit, ret.
  destruct (maintenance_mode (host st)); simpl;
    destruct (load_loop _ _ _) as [[[x|e] st1] t1]; reflexivity.
Qed.

(** C3, as the code has it.  When the loop of load_plugins gives up after
    the last retry, load_plugins returns to its caller without an
    exception, and the registry is empty: no plugin is in the active map,
    none is in the inactive map, and no app of a plugin is installed. *)
Theorem retry_exhaustion_empties_registry st :
  load_exit st = Some MaxRetries ->
  exists st' t,
    load_plugins st = (Ok tt, st', t) /\
    plugins (reg st') = [] /\
    plugins_inactive (reg st') = [] /\
    installed_apps (reg st') = [].
Proof.
  unfold load_exit. rewrite load_plugins_run.
  pose proof (load_loop_induction
                (fun rc b st r => forall st' t, r = (Ok MaxRetries, st', t) ->
                   plugins (reg st') = [] /\ plugins_inactive (reg st') = [] /\
                   installed_apps (reg st') = [])) as Hloop.
  specialize (Hloop ltac:(intros ? ? ? ? ? ? Hrun st' t Heq; inversion Heq; subst;
                          eapply load_turn_max_retries; eauto)
                    ltac:(intros; discriminate)).
  assert (Hstep : forall rc b st path st1 t1,
             load_turn rc b st = (Ok (Again path), st1, t1) ->
             (0 < rc - 1)%Z ->
             (forall st' t, load_loop (rc - 1) (Some path) st1 = (Ok MaxRetries, st', t) ->
                plugins (reg st') = [] /\ plugins_inactive (reg st') = [] /\
                installed_apps (reg st') = []) ->
             forall st' t, after t1 (load_loop (rc - 1) (Some path) st1)
                           = (Ok MaxRetries, st', t) ->
                plugins (reg st') = [] /\ plugins_inactive (reg st') = [] /\
                installed_apps (reg st') = []).
  { intros rc b s path s1 t1 _ _ IH st' t.
    destruct (load_loop _ _ s1) as [[o s2] t2]. simpl.
    intros Heq; inversion Heq; subst. eapply IH; eauto. }
  specialize (Hloop Hstep (PLUGIN_RETRY env) None (load_entry st)).
  destruct (load_loop _ _ _) as [[[x|e] st1] t1]; [|discriminate].
  intros Hx; inversion Hx; subst.
  destruct (Hloop _ _ eq_refl) as (Hp & Hi & Ha).
  simpl. destruct (maintenance_mode (host st)); eexists; eexists; (split; [reflexivity|]);
    simpl; auto.
Qed.

(** *** The guard flag over a whole load *)




















(** The flag is unset, or as it was. *)
Definition flag_low (st st' : State H) : Prop :=
  is_loading (reg st') = false \/ is_loading (reg st') = is_loading (reg st).

Lemma flag_low_refl st : flag_low st st.
Proof. right. reflexivity. Qed.















(** ** Further properties of the registry *)

(** *** The number of initialisation passes of a load *)

Definition is_init_pass (e : Event) : bool :=
  match e with EvInitPlugins _ => true | _ => false end.

(** How often [_init_plugins] was started in a trace. *)
Definition init_passes (t : list Event) : nat := length (filter is_init_pass t).

Definition no_pass (e : Event) : Prop := is_init_pass e = false.

Definition any_state : State H -> State H -> Prop := fun _ _ => True.

#[local] Instance any_state_Frame : Frame any_state.
Proof. split; unfold any_state; auto. Qed.

Lemma init_passes_app t1 t2 : init_passes (t1 ++ t2) = init_passes t1 + init_passes t2.
Proof. unfold init_passes. rewrite filter_app, length_app. reflexivity. Qed.

Lemma init_passes_none t : Forall no_pass t -> init_passes t = 0.
Proof.
  unfold init_passes. induction 1 as [|e t He _ IH]; simpl; [reflexivity|].
  rewrite He. assumption.
Qed.

Lemma init_plugin_no_pass disabled plugin :
  keeps any_state no_pass any_exn (init_plugin disabled plugin).
Proof.
  unfold init_plugin, get_db_setting, get_plugin_error, log_plugin_error, add_inactive,
    add_plugin.
  frame_tac.
Qed.

Lemma activate_plugins_no_pass force :
  keeps any_state no_pass any_exn (_activate_plugins force).
Proof.
  apply keeps_weaken with (R := act_frame) (P := activation_event) (E := any_exn);
    [firstorder | | auto | apply activate_plugins_frame].
  intros []; simpl; intros He; try contradiction; reflexivity.
Qed.

Lemma init_plugins_passes disabled st o st' t :
  _init_plugins disabled st = (o, st', t) -> init_passes t = 1.
Proof.
  unfold _init_plugins, bind, emit, gets.
  destruct (for_each _ _ st) as [[o1 st1] t1] eqn:Hloop.
  assert (Hk : keeps any_state no_pass any_exn
                 (for_each (plugin_modules (reg st)) (init_plugin disabled)))
    by (keeps_tac; apply init_plugin_no_pass).
  destruct (Hk _ _ _ _ Hloop) as (_ & Hnone & _).
  destruct o1; intros Heq; inversion Heq; subst; simpl;
    change (S (init_passes t1) = 1); rewrite (init_passes_none Hnone); reflexivity.
Qed.

(** Every turn of the loop starts exactly one initialisation pass. *)
Lemma load_turn_passes retry_counter blocked st o st' t :
  load_turn retry_counter blocked st = (o, st', t) -> init_passes t = 1.
Proof.
  unfold load_turn, try_except.
  destruct (bind (_init_plugins blocked) _ st) as [[ob sb] tb] eqn:Hbody.
  assert (Hb : init_passes tb = 1).
  { unfold bind in Hbody.
    destruct (_init_plugins blocked st) as [[[[]|e] s1] t1] eqn:Hinit.
    - pose proof (init_plugins_passes _ _ Hinit) as H1.
      destruct (_activate_plugins false s1) as [[[[]|e] s2] t2] eqn:Hact;
        destruct (activate_plugins_no_pass _ _ Hact) as (_ & Hnone & _);
        inversion Hbody; subst; rewrite !init_passes_app, H1, (init_passes_none Hnone);
        reflexivity.
    - inversion Hbody; subst. eapply init_plugins_passes; eauto. }
  destruct ob as [x|e].
  - intros Heq; inversion Heq; subst. assumption.
  - destruct e; try (intros Heq; inversion Heq; subst; assumption).
    + intros Heq; inversion Heq; subst. rewrite init_passes_app, Hb. reflexivity.
    + destruct (bind (log_plugin_error path message) _ sb) as [[oh sh] th] eqn:Hh.
      assert (Hk : keeps any_state no_pass any_exn
                     (log_plugin_error path message ;;
                      _clean_registry ;;
                      _clean_installed_apps ;;
                      _activate_plugins true ;;
                      if (retry_counter - 1 <=? 0)%Z then ret (Leave MaxRetries)
                      else ret (Again path))).
      { unfold log_plugin_error, _clean_registry. frame_tac.
        apply activate_plugins_no_pass. }
      destruct (Hk _ _ _ _ Hh) as (_ & Hnone & _).
      intros Heq; inversion Heq; subst.
      rewrite init_passes_app, Hb, (init_passes_none Hnone). reflexivity.
Qed.

Lemma load_loop_passes retry_counter blocked st :
  init_passes (snd (load_loop retry_counter blocked st))
  <= Z.to_nat (Z.max 1 retry_counter).
Proof.
  apply (load_loop_induction
           (fun rc b st r => init_passes (snd r) <= Z.to_nat (Z.max 1 rc))).
  - intros rc b s x s1 t1 Hturn. simpl. rewrite (load_turn_passes _ _ _ Hturn). lia.
  - intros rc b s e s1 t1 Hturn. simpl. rewrite (load_turn_passes _ _ _ Hturn). lia.
  - intros rc b s path s1 t1 Hturn Hpos IH.
    destruct (load_loop (rc - 1) (Some path) s1) as [[o2 s2] t2]. simpl in *.
    rewrite init_passes_app, (load_turn_passes _ _ _ Hturn). lia.
Qed.

(** X1.  However the discovered plugins fail, a call of load_plugins starts
    [_init_plugins] at most PLUGIN_RETRY times, and once when PLUGIN_RETRY
    is not positive: the retry counter bounds the loop. *)
Theorem load_plugins_retry_bound st :
  init_passes (snd (load_plugins st)) <= Z.to_nat (Z.max 1 (PLUGIN_RETRY env)).
Proof.
  rewrite load_plugins_run.
  pose proof (load_loop_passes (PLUGIN_RETRY env) None (load_entry st)) as Hloop.
  destruct (load_loop _ _ _) as [[[x|e] st1] t1]; simpl in *;
    destruct (maintenance_mode (host st)); simpl;
    unfold init_passes in *; simpl; rewrite ?filter_app, ?length_app; simpl; lia.
Qed.

(** *** Cleaning the installed apps *)

Lemma count_remove_first p l x :
  count_occ string_dec (remove_first p l) x =
  if string_dec x p then pred (count_occ string_dec l x) else count_occ string_dec l x.
Proof.
  induction l as [|y l IH]; simpl.
  - destruct (string_dec x p); reflexivity.
  - destruct (String.eqb_spec p y); simpl; rewrite ?IH;
      repeat (destruct (string_dec _ _)); subst; try congruence; reflexivity.
Qed.

Definition clean_step (acc : list string) (plugin : string) : list string :=
  if mem plugin acc then remove_first plugin acc else acc.

Lemma count_clean_step acc p x :
  count_occ string_dec (clean_step acc p) x =
  if string_dec x p then pred (count_occ string_dec acc x) else count_occ string_dec acc x.
Proof.
  unfold clean_step. destruct (mem p acc) eqn:Hmem.
  - apply count_remove_first.
  - destruct (string_dec x p) as [-> | ]; [|reflexivity].
    apply mem_false in Hmem. apply (count_occ_not_In string_dec) in Hmem.
    rewrite Hmem. reflexivity.
Qed.

Lemma count_clean installed : forall acc x,
  count_occ string_dec (fold_left clean_step installed acc) x =
  count_occ string_dec acc x - count_occ string_dec installed x.
Proof.
  induction installed as [|p installed IH]; intros acc x; simpl.
  - lia.
  - rewrite IH, count_clean_step.
    destruct (string_dec x p), (string_dec p x); subst; try congruence; lia.
Qed.

(** X2.  [_clean_installed_apps] takes from settings.INSTALLED_APPS one
    occurrence for every path the registry has recorded and nothing else
    (an app the registry did not record keeps all its occurrences), and
    forgets the recorded paths. *)
Theorem clean_installed_apps_counts st x :
  let st' := snd (fst (_clean_installed_apps st)) in
  count_occ string_dec (INSTALLED_APPS (host st')) x =
    count_occ string_dec (INSTALLED_APPS (host st)) x
    - count_occ string_dec (installed_apps (reg st)) x /\
  installed_apps (reg st') = [].
Proof.
  simpl. split; [apply count_clean | reflexivity].
Qed.

(** *** unload_plugins *)

(** Neither a load nor an unload touches the discovery list, the
    maintenance flag (outside their own first and last step) or the
    availability of the database. *)
Definition steady_frame : State H -> State H -> Prop :=
  same (fun st => (plugin_modules (reg st), maintenance_mode (host st), db_ready (host st))).

#[local] Instance steady_frame_Frame : Frame steady_frame.
Proof. unfold steady_frame. typeclasses eauto. Qed.

Lemma init_plugins_steady disabled :
  keeps steady_frame any_event any_exn (_init_plugins disabled).
Proof.
  apply keeps_weaken with (R := init_frame) (P := init_event) (E := any_exn);
    [ | firstorder | auto | apply init_plugins_frame].
  intros a b Hab. inversion Hab. unfold steady_frame, same. congruence.
Qed.

Lemma activate_plugins_steady force :
  keeps steady_frame any_event any_exn (_activate_plugins force).
Proof.
  apply keeps_weaken with (R := act_frame) (P := activation_event) (E := any_exn);
    [ | firstorder | auto | apply activate_plugins_frame].
  intros a b Hab. inversion Hab. unfold steady_frame, same. congruence.
Qed.

Lemma load_loop_steady retry_counter blocked :
  keeps steady_frame any_event any_exn (load_loop retry_counter blocked).
Proof.
  apply load_loop_keeps; try typeclasses eauto. intros rc b.
  apply load_turn_keeps; try typeclasses eauto; try exact I;
    auto using init_plugins_steady, activate_plugins_steady.
  - intros p m. unfold log_plugin_error. frame_tac.
  - unfold _clean_registry. frame_tac.
  - frame_tac.
  - intros; exact I.
Qed.

(** The registry-side frame of a deactivation pass: the two maps, the
    guard and the discovery list are not its business. *)
Definition deactivation_frame : State H -> State H -> Prop :=
  same (fun st => (plugins (reg st), plugins_inactive (reg st), plugin_modules (reg st),
                   errors (reg st), maintenance_mode (host st), db_ready (host st),
                   plugin_configs (host st), schedules (host st))).

#[local] Instance deactivation_frame_Frame : Frame deactivation_frame.
Proof. unfold deactivation_frame. typeclasses eauto. Qed.

Lemma deactivate_plugins_frame :
  keeps deactivation_frame any_event any_exn _deactivate_plugins.
Proof.
  unfold _deactivate_plugins, deactivate_integration_app, deactivate_integration_schedule,
    deactivate_integration_settings, deregister_app, _reload_apps, _update_urls.
  frame_tac.
Qed.

(** What a deactivation pass that returns leaves behind. *)
Lemma deactivate_plugins_post st st' t :
  _deactivate_plugins st = (Ok tt, st', t) ->
  installed_apps (reg st') = [] /\
  mixins_settings (reg st') = [] /\
  is_loading (reg st') = false /\
  INTEGRATION_APPS_LOADED (host st') = false /\
  INSTALLED_APPS (host st') =
    fold_left clean_step (installed_apps (reg st)) (INSTALLED_APPS (host st)).
Proof.
  unfold _deactivate_plugins, deactivate_integration_app, deactivate_integration_schedule,
    deactivate_integration_settings.
  intros Hrun.
  apply bind_ok in Hrun as ([] & s1 & t1 & t2 & Happ & Hrun & ->).
  apply bind_ok in Hrun as ([] & s2 & t3 & t4 & Hs & Hrun & ->).
  inversion Hs; subst; clear Hs.
  apply bind_ok in Hrun as ([] & s3 & t5 & t6 & Hm & He & ->).
  inversion Hm; subst; clear Hm. inversion He; subst; clear He.
  apply bind_ok in Happ as (paths & s4 & t7 & t8 & Hg & Happ & ->).
  inversion Hg; subst; clear Hg.
  apply bind_ok in Happ as ([] & s5 & t9 & t10 & Hloop & Happ & ->).
  destruct (deregister_apps_frame _ _ Hloop) as (Hframe & _ & _).
  apply bind_ok in Happ as ([] & s6 & t11 & t12 & Hclean & Happ & ->).
  inversion Hclean; subst; clear Hclean.
  apply bind_ok in Happ as ([] & s7 & t13 & t14 & Hflag & Happ & ->).
  inversion Hflag; subst; clear Hflag.
  apply bind_ok in Happ as ([] & s8 & t15 & t16 & Hreload & Hurls & ->).
  destruct (reload_apps_brackets _ _ Hreload) as (Hloading & _).
  assert (Hk : keeps (same (fun st => (installed_apps (reg st), INSTALLED_APPS (host st),
                                       INTEGRATION_APPS_LOADED (host st))))
                     any_event any_exn (_reload_apps false))
    by (unfold _reload_apps; frame_tac).
  destruct (Hk _ _ _ _ Hreload) as (Hsame & _).
  unfold _update_urls, bind, modify, emit in Hurls. inversion Hurls; subst; clear Hurls.
  unfold same in Hsame. simpl in Hsame. inversion Hsame as [[Hia HIA Hint]].
  unfold deregister_frame, same in Hframe. inversion Hframe as [[Hreg Hsch5 HIA5]].
  simpl. rewrite Hreg, HIA5 in *. repeat split; auto; congruence.
Qed.

(** X3.  An unload that returns has emptied the active map, the inactive
    map, the recorded apps and the settings index, has taken the
    recorded apps out of settings.INSTALLED_APPS, has left the guard
    unset, and has put the maintenance flag back to what it was; the
    PluginConfig rows and the scheduled tasks are as before. *)
Theorem unload_plugins_post st st' t :
  unload_plugins st = (Ok tt, st', t) ->
  plugins (reg st') = [] /\
  plugins_inactive (reg st') = [] /\
  installed_apps (reg st') = [] /\
  mixins_settings (reg st') = [] /\
  is_loading (reg st') = false /\
  INSTALLED_APPS (host st') =
    fold_left clean_step (installed_apps (reg st)) (INSTALLED_APPS (host st)) /\
  maintenance_mode (host st') = maintenance_mode (host st) /\
  plugin_configs (host st') = plugin_configs (host st) /\
  schedules (host st') = schedules (host st).
Proof.
  unfold unload_plugins, get_maintenance_mode. intros Hrun.
  apply bind_ok in Hrun as (m & s1 & t1 & t2 & Hm & Hrun & ->).
  inversion Hm; subst; clear Hm.
  apply bind_ok in Hrun as ([] & s2 & t3 & t4 & Hset & Hrun & ->).
  apply bind_ok in Hrun as ([] & s3 & t5 & t6 & Hreg & Hrun & ->).
  inversion Hreg; subst; clear Hreg.
  apply bind_ok in Hrun as ([] & s4 & t7 & t8 & Hdeact & Hend & ->).
  destruct (deactivate_plugins_frame _ Hdeact) as (Hframe & _ & _).
  destruct (deactivate_plugins_post _ Hdeact) as (Hia & Hms & Hload & _ & HIA).
  unfold deactivation_frame, same in Hframe. simpl in Hframe.
  inversion Hframe as [[Hp Hi Hmod Herr Hmm Hdb Htab Hsch]].
  unfold set_maintenance, bind, modify, emit, ret in Hset, Hend.
  destruct (maintenance_mode (host s1)) eqn:Hmaint; simpl in *;
    inversion Hset; subst; clear Hset; inversion Hend; subst; clear Hend;
    simpl in *; repeat split; auto; congruence.
Qed.

(** *** Maintenance mode around a load *)

(** X4.  load_plugins switches maintenance mode on for the load.  When it
    returns, the flag is what it was at the call; when an exception leaves
    it, the flag is still on. *)
Theorem load_plugins_maintenance st :
  maintenance_mode (host (snd (fst (load_plugins st)))) =
  match fst (fst (load_plugins st)) with
  | Ok _ => maintenance_mode (host st)
  | Raise _ => true
  end.
Proof.
  rewrite load_plugins_run.
  destruct (load_loop (PLUGIN_RETRY env) None (load_entry st)) as [[o st1] t1] eqn:Hloop.
  destruct (load_loop_steady _ _ _ Hloop) as (Hsame & _).
  unfold steady_frame, same in Hsame. injection Hsame as _ Hm _.
  unfold load_entry in Hm.
  destruct o; destruct (maintenance_mode (host st)) eqn:Hmaint; simpl; auto; congruence.
Qed.

(** *** An unavailable scheduler *)

Lemma register_all_unavailable plugins : forall task_keys st,
  db_ready (host st) = false ->
  register_all plugins task_keys st = (Ok task_keys, st, []).
Proof.
  induction plugins as [|[k plugin] plugins IH]; intros task_keys st Hdb; simpl.
  - reflexivity.
  - destruct (mixin_enabled plugin "schedule"); [|auto].
    assert (Hcfg : plugin_config plugin st = (Ok None, st, [])).
    { unfold plugin_config, try_except, bind, get_or_create. rewrite Hdb. reflexivity. }
    erewrite bind_run_ok by exact Hcfg. simpl. rewrite (IH _ _ Hdb). reflexivity.
Qed.

(** X5.  While the database is not reachable, a schedule-activation pass
    is harmless: it returns without an exception, registers and deletes
    nothing, and leaves the whole state as it was. *)
Theorem schedule_activation_unavailable plugins st :
  db_ready (host st) = false ->
  activate_integration_schedule plugins st = (Ok tt, st, []).
Proof.
  intros Hdb. unfold activate_integration_schedule.
  assert (Hreg : (if PLUGIN_TESTING env || ENABLE_PLUGINS_SCHEDULE env
                  then register_all plugins [] else ret []) st = (Ok [], st, [])).
  { destruct (PLUGIN_TESTING env || ENABLE_PLUGINS_SCHEDULE env);
      [apply register_all_unavailable; assumption | reflexivity]. }
  erewrite bind_run_ok by exact Hreg. unfold remove_stale_tasks. rewrite Hdb. reflexivity.
Qed.

(** *** A database that is not accessible *)

Lemma init_plugin_no_database disabled plugin st :
  PLUGIN_TESTING env = false ->
  db_ready (host st) = false ->
  init_plugin disabled plugin st = (Raise DbError, st, []).
Proof.
  intros Htest Hdb.
  unfold init_plugin, get_db_setting, try_except, bind, get_or_create.
  rewrite Hdb, Htest. reflexivity.
Qed.

(** X6.  Outside of tests, when the database is not accessible and at
    least one plugin was discovered, load_plugins gives up quietly: it
    returns without an exception after one initialisation pass, no plugin
    class is instantiated, and the registry is exactly as it was. *)
Theorem load_plugins_without_database st :
  PLUGIN_TESTING env = false ->
  db_ready (host st) = false ->
  plugin_modules (reg st) <> [] ->
  exists st' t,
    load_plugins st = (Ok tt, st', t) /\
    reg st' = reg st /\
    (host st' = host st) /\
    (forall cls, ~ In (EvInstantiate cls) t) /\
    load_exit st = Some DbNotAccessible.
Proof.
  intros Htest Hdb Hmods.
  assert (Hturn : forall rc s, db_ready (host s) = false ->
            plugin_modules (reg s) = plugin_modules (reg st) ->
            load_turn rc None s = (Ok (Leave DbNotAccessible), s, [EvInitPlugins None])).
  { intros rc s Hdbs Hms. unfold load_turn, try_except.
    assert (Hinit : _init_plugins None s = (Raise DbError, s, [EvInitPlugins None])).
    { unfold _init_plugins, bind, emit, gets. rewrite Hms.
      destruct (plugin_modules (reg st)) as [|c ms]; [contradiction|].
      simpl. unfold bind. rewrite (init_plugin_no_database None c s Htest Hdbs).
      reflexivity. }
    erewrite bind_run_raise by exact Hinit. reflexivity. }
  unfold load_exit. rewrite load_plugins_run, load_loop_eq.
  rewrite Hturn; unfold load_entry;
    [| destruct (maintenance_mode (host st)); assumption
     | destruct (maintenance_mode (host st)); reflexivity].
  destruct (maintenance_mode (host st)) eqn:Hmaint; simpl.
  - exists st, [EvInitPlugins None]. repeat split; auto.
    intros cls [Hc | []]. discriminate.
  - eexists. eexists. split; [reflexivity|]. simpl. repeat split.
    + destruct st as [r h]. destruct h. simpl in *. subst. reflexivity.
    + intros cls [Hc | [Hc | [Hc | []]]]; discriminate.
Qed.

(** *** The settings index *)

Definition has_settings (entry : string * PluginInstance) : bool :=
  mixin_enabled (snd entry) "settings".

Definition settings_entry (entry : string * PluginInstance)
  : string * list (string * string) :=
  (fst entry, inst_settings (snd entry)).

Lemma settings_loop plugins : forall st : State H,
  NoDup (keys (mixins_settings (reg st)) ++ keys plugins) ->
  for_each plugins (fun '(slug, plugin) =>
    if mixin_enabled plugin "settings" then
      modify (upd_reg (fun r =>
        set_mixins_settings (dict_set slug (inst_settings plugin) (mixins_settings r)) r))
    else ret tt) st =
  (Ok tt,
   upd_reg (set_mixins_settings
              (mixins_settings (reg st) ++ map settings_entry (filter has_settings plugins)))
           st,
   []).
Proof.
  induction plugins as [|[k p] plugins IH]; intros st Hnd; simpl.
  - rewrite app_nil_r. destruct st as [[] h]. reflexivity.
  - unfold has_settings at 1. simpl.
    assert (Hk : ~ In k (keys (mixins_settings (reg st)))).
    { intros Hin. apply NoDup_remove_2 in Hnd. apply Hnd, in_or_app. auto. }
    destruct (mixin_enabled p "settings").
    + unfold bind, modify. rewrite IH.
      * simpl. rewrite dict_set_fresh by exact Hk. rewrite <- app_assoc. reflexivity.
      * simpl. rewrite dict_set_fresh by exact Hk. unfold keys in *.
        rewrite map_app, <- app_assoc. simpl. assumption.
    + unfold bind, ret. rewrite IH.
      * reflexivity.
      * apply NoDup_remove_1 in Hnd. assumption.
Qed.

(** X7.  Settings activation rebuilds the index from the active plugins
    alone: whatever the index held before, it afterwards holds, in the
    order of the active map, exactly the settings of the plugins with the
    settings mixin, each under its slug; nothing else changes. *)
Theorem settings_index_rebuilt plugins st :
  NoDup (keys plugins) ->
  activate_integration_settings plugins st =
  (Ok tt,
   upd_reg (set_mixins_settings (map settings_entry (filter has_settings plugins))) st,
   []).
Proof.
  intros Hnd. unfold activate_integration_settings, bind, modify.
  rewrite settings_loop; [reflexivity | assumption].
Qed.

(** *** Discovery *)

Definition dir_modules (dir : string) : list PluginClass :=
  match import_plugin_dir env dir with
  | DirModules found => found
  | DirImportFails _ => []
  end.

Definition entry_modules (entry : EntryOutcome) : list PluginClass :=
  match entry with
  | EntryLoaded c => [packaged c]
  | EntryFails _ _ => []
  end.

(** Whether the entry points are consulted at all. *)
Definition entry_points_enabled : bool :=
  negb (PLUGIN_TESTING env) || (PLUGIN_TESTING env && PLUGIN_TESTING_SETUP env).

Lemma collect_dirs dirs : forall st : State H,
  (forall dir, In dir dirs -> exists found, import_plugin_dir env dir = DirModules found) ->
  for_each dirs collect_dir st =
  (Ok tt,
   upd_reg (fun r => set_plugin_modules (plugin_modules r ++ flat_map dir_modules dirs) r) st,
   []).
Proof.
  induction dirs as [|d dirs IH]; intros st Hok; simpl.
  - destruct st as [[] h]. unfold ret, upd_reg, set_plugin_modules. simpl.
    rewrite app_nil_r. reflexivity.
  - destruct (Hok d (or_introl eq_refl)) as (found & Hd).
    unfold collect_dir at 1, dir_modules at 1. rewrite Hd.
    unfold bind, add_modules, modify. rewrite IH by (intros; apply Hok; right; assumption).
    destruct st as [[] h]. unfold upd_reg, set_plugin_modules. simpl.
    rewrite <- app_assoc. reflexivity.
Qed.

Definition errors_grow (st st' : State H) : Prop :=
  incl (keys (errors (reg st))) (keys (errors (reg st'))).

Lemma collect_entries entries : forall st : State H,
  exists st',
    for_each entries collect_entry st = (Ok tt, st', []) /\
    plugin_modules (reg st') = plugin_modules (reg st) ++ flat_map entry_modules entries /\
    host st' = host st /\
    plugins (reg st') = plugins (reg st) /\
    plugins_inactive (reg st') = plugins_inactive (reg st) /\
    errors_grow st st' /\
    (forall path message, In (EntryFails path message) entries ->
                          In path (keys (errors (reg st')))).
Proof.
  induction entries as [|entry entries IH]; intros st; simpl.
  - exists st. rewrite app_nil_r.
    repeat split; auto; try (unfold errors_grow; apply incl_refl); try contradiction.
  - destruct entry as [path message | c]; simpl.
    + set (st1 := upd_reg (fun r => set_errors (dict_set path message (errors r)) r) st).
      destruct (IH st1) as (st' & Hrun & Hmods & Hhost & Hp & Hi & Hgrow & Hfail).
      exists st'. unfold bind, get_plugin_error, log_plugin_error, bind, modify, ret.
      fold st1. rewrite Hrun. repeat split; auto.
      * intros x Hx. apply Hgrow. simpl. apply dict_set_keys_incl. assumption.
      * intros p m [Heq | Hin]; [|eauto].
        inversion Heq; subst. apply Hgrow. simpl. apply dict_set_in_keys.
    + set (st1 := upd_reg (fun r => set_plugin_modules (plugin_modules r ++ [packaged c]) r) st).
      destruct (IH st1) as (st' & Hrun & Hmods & Hhost & Hp & Hi & Hgrow & Hfail).
      exists st'. unfold bind, add_modules, modify. fold st1. rewrite Hrun.
      repeat split; auto.
      * rewrite Hmods. simpl. rewrite <- app_assoc. reflexivity.
      * intros p m [Heq | Hin]; [discriminate | eauto].
Qed.

(** X8.  When every search path of PLUGIN_DIRS can be imported,
    collect_plugins returns whatever the entry points do: the discovery
    list is replaced (not extended) by the classes of the search paths
    followed, where entry points are consulted, by the classes of the
    entry points that load, marked as packages; every entry point that
    fails is recorded in [errors] and does not stop the others. *)
Theorem collect_plugins_contains_entry_failures st :
  (forall dir, In dir (PLUGIN_DIRS env) ->
               exists found, import_plugin_dir env dir = DirModules found) ->
  exists st',
    collect_plugins st = (Ok tt, st', []) /\
    plugin_modules (reg st') =
      flat_map dir_modules (PLUGIN_DIRS env) ++
      (if entry_points_enabled then flat_map entry_modules (entry_points env) else []) /\
    host st' = host st /\
    plugins (reg st') = plugins (reg st) /\
    plugins_inactive (reg st') = plugins_inactive (reg st) /\
    (entry_points_enabled = true ->
     forall path message, In (EntryFails path message) (entry_points env) ->
                          In path (keys (errors (reg st')))).
Proof.
  intros Hdirs. unfold collect_plugins, bind at 1, modify.
  unfold bind at 1. rewrite (collect_dirs _ _ Hdirs). simpl.
  unfold entry_points_enabled.
  destruct (negb (PLUGIN_TESTING env) || PLUGIN_TESTING env && PLUGIN_TESTING_SETUP env).
  - match goal with
    | |- context [for_each (entry_points env) collect_entry ?s] =>
        destruct (collect_entries (entry_points env) s)
          as (st' & Hrun & Hmods & Hhost & Hp & Hi & _ & Hfail)
    end.
    exists st'. rewrite Hrun. simpl in *. repeat split; auto.
  - eexists. split; [reflexivity|]. simpl. rewrite app_nil_r.
    repeat split; auto. discriminate.
Qed.

(** *** Only activated plugins are instantiated *)

(** No row of the PluginConfig table becomes active. *)
Definition active_rows_shrink (st st' : State H) : Prop :=
  forall r, In r (plugin_configs (host st')) -> cfg_active r = true ->
            In r (plugin_configs (host st)).

(** The row that allows the instantiation of a class. *)
Definition activated_by (table : list PluginConfig) (plugin : PluginClass) : Prop :=
  exists row, In row table /\ cfg_key row = plug_key_of plugin /\
              cfg_name row = PLUGIN_NAME plugin /\ cfg_active row = true.

Lemma config_matches_inv key name c :
  config_matches key name c = true -> cfg_key c = key /\ cfg_name c = name.
Proof.
  unfold config_matches. intros Hm. apply andb_prop in Hm as [Hk Hn].
  apply String.eqb_eq in Hk, Hn. auto.
Qed.

Lemma init_plugin_activated disabled plugin st o st' t :
  PLUGIN_TESTING env = false ->
  config_default_active env = false ->
  init_plugin disabled plugin st = (o, st', t) ->
  active_rows_shrink st st' /\
  (forall cls, In (EvInstantiate cls) t ->
     cls = cls_name plugin /\ is_blocked disabled plugin = false /\
     activated_by (plugin_configs (host st)) plugin).
Proof.
  intros Htest Hdefault.
  unfold init_plugin, get_db_setting, try_except, bind, get_or_create.
  rewrite Htest. simpl.
  destruct (db_ready (host st)) eqn:Hdb; simpl.
  - destruct (find _ (plugin_configs (host st))) as [c|] eqn:Hfind; simpl.
    + apply find_some in Hfind as [Hin Hmatch].
      apply config_matches_inv in Hmatch as [Hkey Hname].
      destruct (cfg_active c) eqn:Hactive; simpl.
      * destruct (is_blocked disabled plugin) eqn:Hblocked; simpl.
        -- unfold save_config. rewrite Hdb. simpl. unfold add_inactive, modify. simpl.
           intros Heq; inversion Heq; subst; clear Heq. split.
           ++ intros r Hr Hact. simpl in Hr. apply in_map_iff in Hr as (r0 & Hstore & Hr0).
              unfold store_row in Hstore. destruct (Nat.eqb _ _); subst; auto.
              discriminate.
           ++ intros cls [Hc | []]. discriminate.
        -- unfold emit. destruct (construct plugin) as [i | path message]; simpl;
             unfold add_plugin, get_plugin_error, log_plugin_error, bind, modify, raise;
             simpl; intros Heq; inversion Heq; subst; clear Heq;
             (split; [intros r Hr _; exact Hr |]);
             intros cls [Hc | []]; inversion Hc; subst;
             (split; [reflexivity | split; [reflexivity |]]);
             exists c; auto.
      * unfold add_inactive, modify. intros Heq; inversion Heq; subst; clear Heq.
        split; [intros r Hr _; exact Hr | intros cls []].
    + destruct (existsb _ _); simpl.
      * intros Heq; inversion Heq; subst; clear Heq.
        split; [intros r Hr _; exact Hr | intros cls []].
      * rewrite Hdefault. simpl. unfold add_inactive, modify.
        intros Heq; inversion Heq; subst; clear Heq. split.
        -- intros r Hr Hact. simpl in Hr. apply in_app_or in Hr as [Hr | [<- | []]];
             [assumption | discriminate].
        -- intros cls [Hc | []]. discriminate.
  - unfold raise. intros Heq; inversion Heq; subst; clear Heq.
    split; [intros r Hr _; exact Hr | intros cls []].
Qed.

Lemma init_each_activated disabled modules : forall st o st' t,
  PLUGIN_TESTING env = false ->
  config_default_active env = false ->
  for_each modules (init_plugin disabled) st = (o, st', t) ->
  active_rows_shrink st st' /\
  (forall cls, In (EvInstantiate cls) t ->
     exists plugin, In plugin modules /\ cls_name plugin = cls /\
                    is_blocked disabled plugin = false /\
                    activated_by (plugin_configs (host st)) plugin).
Proof.
  induction modules as [|c modules IH]; intros st o st' t Htest Hdefault; simpl.
  - intros Heq; inversion Heq; subst. split; [intros r Hr _; exact Hr | intros cls []].
  - unfold bind.
    destruct (init_plugin disabled c st) as [[[[]|e] s1] t1] eqn:Hone;
      destruct (init_plugin_activated _ _ _ Htest Hdefault Hone) as [Hshrink Hfirst].
    + destruct (for_each modules (init_plugin disabled) s1) as [[o2 s2] t2] eqn:Hrest.
      destruct (IH _ _ _ _ Htest Hdefault Hrest) as [Hshrink2 Hlater].
      intros Heq; inversion Heq; subst; clear Heq. split.
      * intros r Hr Hact. apply Hshrink; auto.
      * intros cls Hin. apply in_app_or in Hin as [Hin | Hin].
        -- destruct (Hfirst _ Hin) as (-> & ? & ?). exists c. simpl. auto.
        -- destruct (Hlater _ Hin) as (plugin & ? & ? & ? & row & ? & ? & ? & ?).
           exists plugin. simpl. repeat split; auto.
           exists row. repeat split; auto.
    + intros Heq; inversion Heq; subst; clear Heq. split; [assumption|].
      intros cls Hin. destruct (Hfirst _ Hin) as (-> & ? & ?). exists c. simpl. auto.
Qed.

(** X9.  Outside of tests, with new PluginConfig rows inactive by default,
    a pass of _init_plugins only ever calls the constructor of a class
    that an activated row of the table, as it was before the pass, names
    by key and name, and that is not the blocked one: a plugin nobody has
    activated never runs its code. *)
Theorem only_activated_plugins_instantiated disabled st o st' t cls :
  PLUGIN_TESTING env = false ->
  config_default_active env = false ->
  _init_plugins disabled st = (o, st', t) ->
  In (EvInstantiate cls) t ->
  exists plugin,
    In plugin (plugin_modules (reg st)) /\
    cls_name plugin = cls /\
    is_blocked disabled plugin = false /\
    activated_by (plugin_configs (host st)) plugin.
Proof.
  intros Htest Hdefault. unfold _init_plugins, bind, emit, gets.
  destruct (for_each _ _ st) as [[o1 s1] t1] eqn:Hloop.
  destruct (init_each_activated _ _ _ Htest Hdefault Hloop) as [_ Hall].
  destruct o1; intros Heq; inversion Heq; subst; clear Heq;
    intros [Hc | Hin]; try discriminate; auto.
Qed.

(** *** The app name of a plugin path *)

Fixpoint no_dot (s : string) : bool :=
  match s with
  | EmptyString => true
  | String c r => negb (Ascii.eqb c "."%char) && no_dot r
  end.

Lemma string_app_assoc (a b c : string) : ((a ++ b) ++ c = a ++ (b ++ c))%string.
Proof. induction a as [|x a IH]; simpl; [reflexivity | rewrite IH; reflexivity]. Qed.

Lemma last_component_no_dot s : forall acc,
  no_dot s = true -> last_component_from acc s = (acc ++ s)%string.
Proof.
  induction s as [|c s IH]; intros acc Hs; simpl in *.
  - induction acc as [|x acc IHa]; simpl; [reflexivity | rewrite <- IHa; reflexivity].
  - apply andb_prop in Hs as [Hc Hs]. apply negb_true_iff in Hc. rewrite Hc.
    rewrite (IH _ Hs), string_app_assoc. reflexivity.
Qed.

Lemma last_component_after_dot s r : forall acc,
  last_component_from acc (s ++ String "."%char r) = last_component_from EmptyString r.
Proof.
  induction s as [|c s IH]; intros acc; simpl.
  - reflexivity.
  - destruct (Ascii.eqb c "."%char); apply IH.
Qed.

Lemma last_component_join parts name : forall acc,
  no_dot name = true ->
  last_component_from acc (String.concat "." (parts ++ [name])) =
  match parts with [] => (acc ++ name)%string | _ => name end.
Proof.
  induction parts as [|p parts IH]; intros acc Hname.
  - simpl. apply last_component_no_dot. assumption.
  - change (p :: parts) with ([p] ++ parts). simpl app.
    assert (Hc : String.concat "." (p :: parts ++ [name]) =
                 (p ++ String "."%char (String.concat "." (parts ++ [name])))%string).
    { simpl. destruct (parts ++ [name]) eqn:Hl; [destruct parts; discriminate|].
      reflexivity. }
    rewrite Hc, last_component_after_dot, IH by assumption.
    destruct parts; reflexivity.
Qed.

(** X10.  For a plugin that lives below BASE_DIR in a directory whose name
    has no dot, the app name that _reregister_contrib_apps and
    deactivate_integration_app derive from the recorded path
    ([plugin_path.split('.')[-1]]) is the name of that directory. *)
Theorem app_name_of_plugin_path plugin parents name :
  rel_path plugin = Some (parents ++ [name]) ->
  no_dot name = true ->
  last_component (_get_plugin_path plugin) = name.
Proof.
  intros Hpath Hname. unfold _get_plugin_path, last_component. rewrite Hpath.
  rewrite last_component_join by assumption. destruct parents; reflexivity.
Qed.

(** *** Installing the apps of the active plugins *)

(** The paths that the loop of activate_integration_app appends, given
    what is installed when it starts. *)
Fixpoint new_app_paths (plugins : dict PluginInstance) (installed : list string)
  : list string :=
  match plugins with
  | [] => []
  | (_, plugin) :: rest =>
      if mixin_enabled plugin "app" && negb (mem (_get_plugin_path plugin) installed)
      then _get_plugin_path plugin
           :: new_app_paths rest (installed ++ [_get_plugin_path plugin])
      else new_app_paths rest installed
  end.

Definition with_apps (added : list string) (st : State H) : State H :=
  upd_reg (fun r => set_installed_apps (installed_apps r ++ added) r)
          (upd_host (fun h => set_INSTALLED_APPS (INSTALLED_APPS h ++ added) h) st).

Lemma with_apps_nil st : with_apps [] st = st.
Proof.
  destruct st as [[] []]. unfold with_apps, upd_reg, upd_host, set_installed_apps,
    set_INSTALLED_APPS. simpl. rewrite !app_nil_r. reflexivity.
Qed.

Lemma with_apps_cons x added st :
  with_apps added (with_apps [x] st) = with_apps (x :: added) st.
Proof.
  destruct st as [[] []]. unfold with_apps, upd_reg, upd_host, set_installed_apps,
    set_INSTALLED_APPS. simpl. rewrite <- !app_assoc. reflexivity.
Qed.

Lemma install_apps_run plugins : forall changed (st : State H),
  install_apps plugins changed st =
  (Ok (changed || negb (Nat.eqb (length (new_app_paths plugins (INSTALLED_APPS (host st)))) 0)),
   with_apps (new_app_paths plugins (INSTALLED_APPS (host st))) st,
   []).
Proof.
  induction plugins as [|[k p] plugins IH]; intros changed st; simpl.
  - rewrite with_apps_nil, orb_false_r. reflexivity.
  - destruct (mixin_enabled p "app"); simpl; [|apply IH].
    unfold bind at 1, gets.
    destruct (mem (_get_plugin_path p) (INSTALLED_APPS (host st))); simpl.
    + rewrite IH. reflexivity.
    + unfold bind, modify. rewrite IH. simpl.
      rewrite orb_true_r.
      change (upd_reg _ (upd_host _ st)) with (with_apps [_get_plugin_path p] st) at 1.
      rewrite with_apps_cons. reflexivity.
Qed.

Lemma new_app_paths_fresh plugins : forall installed x,
  In x (new_app_paths plugins installed) ->
  ~ In x installed /\
  exists k p, In (k, p) plugins /\ mixin_enabled p "app" = true /\ _get_plugin_path p = x.
Proof.
  induction plugins as [|[k p] plugins IH]; intros installed x; simpl; [contradiction|].
  destruct (mixin_enabled p "app") eqn:Hmix; simpl.
  - destruct (mem (_get_plugin_path p) installed) eqn:Hmem; simpl.
    + intros Hin. destruct (IH _ _ Hin) as (Hnot & k' & p' & ? & ? & ?).
      split; [assumption|]. exists k', p'. auto.
    + intros [<- | Hin].
      * split; [apply mem_false; assumption|]. exists k, p. auto.
      * destruct (IH _ _ Hin) as (Hnot & k' & p' & ? & ? & ?).
        split; [intros Hx; apply Hnot, in_or_app; auto|]. exists k', p'. auto.
  - intros Hin. destruct (IH _ _ Hin) as (Hnot & k' & p' & ? & ? & ?).
    split; [assumption|]. exists k', p'. auto.
Qed.

Lemma new_app_paths_NoDup plugins : forall installed,
  NoDup (new_app_paths plugins installed).
Proof.
  induction plugins as [|[k p] plugins IH]; intros installed; simpl; [constructor|].
  destruct (mixin_enabled p "app" && negb (mem (_get_plugin_path p) installed)); [|apply IH].
  constructor; [|apply IH].
  intros Hin. apply new_app_paths_fresh in Hin as [Hnot _].
  apply Hnot, in_or_app. right. left. reflexivity.
Qed.

Lemma new_app_paths_complete plugins : forall installed k p,
  In (k, p) plugins -> mixin_enabled p "app" = true ->
  In (_get_plugin_path p) (installed ++ new_app_paths plugins installed).
Proof.
  induction plugins as [|[k0 p0] plugins IH]; intros installed k p; simpl; [contradiction|].
  intros [Heq | Hin] Hmix.
  - inversion Heq; subst. rewrite Hmix. simpl.
    destruct (mem (_get_plugin_path p) installed) eqn:Hmem; simpl.
    + apply in_or_app. left. apply mem_In. assumption.
    + apply in_or_app. right. left. reflexivity.
  - destruct (mixin_enabled p0 "app" && negb (mem (_get_plugin_path p0) installed)).
    + specialize (IH (installed ++ [_get_plugin_path p0]) _ _ Hin Hmix).
      rewrite <- app_assoc in IH. exact IH.
    + apply (IH installed _ _ Hin Hmix).
Qed.

(** Whether apps are activated at all. *)
Definition apps_enabled : bool := PLUGIN_TESTING env || ENABLE_PLUGINS_APP env.

Lemma app_activation_run plugins force st o st' t :
  activate_integration_app plugins force st = (o, st', t) ->
  let added := if apps_enabled then new_app_paths plugins (INSTALLED_APPS (host st))
               else [] in
  INSTALLED_APPS (host st') = INSTALLED_APPS (host st) ++ added /\
  installed_apps (reg st') = installed_apps (reg st) ++ added.
Proof.
  unfold activate_integration_app, apps_enabled.
  destruct (PLUGIN_TESTING env || ENABLE_PLUGINS_APP env); simpl.
  - unfold bind at 1. rewrite install_apps_run.
    set (added := new_app_paths plugins (INSTALLED_APPS (host st))).
    assert (Hpost : forall s2, installed_frame (with_apps added st) s2 ->
               INSTALLED_APPS (host s2) = INSTALLED_APPS (host st) ++ added /\
               installed_apps (reg s2) = installed_apps (reg st) ++ added).
    { intros s2 Hr. unfold installed_frame, same in Hr. injection Hr as Hia HIA.
      rewrite Hia, HIA. destruct st as [[] []]. auto. }
    match goal with
    | |- context [if ?b then _ else _] => destruct b
    end.
    + match goal with
      | |- context [bind ?m ?k (with_apps added st)] =>
          assert (Hk : keeps installed_frame any_event any_exn (bind m k))
            by (unfold _reload_apps, _reregister_contrib_apps, reregister_app,
                  _update_urls; frame_tac);
          destruct (bind m k (with_apps added st)) as [[o2 s2] t2] eqn:Hrun
      end.
      destruct (Hk _ _ _ _ Hrun) as (Hframe & _).
      simpl. intros Heq; inversion Heq; subst. apply Hpost. assumption.
    + simpl. intros Heq; inversion Heq; subst. apply Hpost. apply frame_refl.
  - intros Heq; inversion Heq; subst. rewrite !app_nil_r. auto.
Qed.

(** X12.  Whatever its outcome, an app-activation pass extends
    settings.INSTALLED_APPS and the registry's own record by the same
    paths, in the same order: each is the path of an active plugin with
    the app mixin, was not installed before, and is added once. *)
Theorem app_activation_lockstep plugins force st :
  let st' := snd (fst (activate_integration_app plugins force st)) in
  let added := if apps_enabled then new_app_paths plugins (INSTALLED_APPS (host st))
               else [] in
  INSTALLED_APPS (host st') = INSTALLED_APPS (host st) ++ added /\
  installed_apps (reg st') = installed_apps (reg st) ++ added /\
  NoDup added /\
  Forall (fun x => ~ In x (INSTALLED_APPS (host st)) /\
                   exists k p, In (k, p) plugins /\ mixin_enabled p "app" = true /\
                               _get_plugin_path p = x) added.
Proof.
  destruct (activate_integration_app plugins force st) as [[o st'] t] eqn:Hrun.
  destruct (app_activation_run _ _ _ Hrun) as [HIA Hia]. simpl.
  split; [exact HIA | split; [exact Hia |]].
  destruct apps_enabled; [|split; constructor].
  split; [apply new_app_paths_NoDup|]. apply Forall_forall.
  intros x Hx. apply new_app_paths_fresh in Hx. assumption.
Qed.

(** X13.  When the path of every active plugin with the app mixin is
    already installed, an app-activation pass that is not forced does
    nothing: no reload of the host apps, no event, the state unchanged. *)
Theorem app_activation_nothing_new plugins st :
  (forall k p, In (k, p) plugins -> mixin_enabled p "app" = true ->
               In (_get_plugin_path p) (INSTALLED_APPS (host st))) ->
  activate_integration_app plugins false st = (Ok tt, st, []).
Proof.
  intros Hall. unfold activate_integration_app.
  destruct (PLUGIN_TESTING env || ENABLE_PLUGINS_APP env); [|reflexivity].
  unfold bind at 1. rewrite install_apps_run.
  assert (Hnone : new_app_paths plugins (INSTALLED_APPS (host st)) = []).
  { destruct (new_app_paths plugins (INSTALLED_APPS (host st))) as [|x l] eqn:Hl;
      [reflexivity|].
    assert (Hx : In x (new_app_paths plugins (INSTALLED_APPS (host st))))
      by (rewrite Hl; left; reflexivity).
    apply new_app_paths_fresh in Hx as (Hnot & k & p & Hin & Hmix & Hpath).
    exfalso. apply Hnot. rewrite <- Hpath. eauto. }
  rewrite Hnone, with_apps_nil. reflexivity.
Qed.

(** *** Where the entries of the active map come from *)

(** Every key of the active map was there before or is the slug of an
    instance that a class of [ms] constructs. *)
Definition origin (ms : list PluginClass) (st st' : State H) : Prop :=
  forall k, In k (keys (plugins (reg st'))) ->
    In k (keys (plugins (reg st))) \/
    exists c i, In c ms /\ construct c = InstOk i /\ slug i = k.

Definition origin_frame (ms : list PluginClass) (st st' : State H) : Prop :=
  plugin_modules (reg st') = plugin_modules (reg st) /\ origin ms st st'.

#[local] Instance origin_frame_Frame ms : Frame (origin_frame ms).
Proof.
  split; unfold origin_frame, origin.
  - intros st. split; auto.
  - intros a b c [Hm1 H1] [Hm2 H2]. split; [congruence|].
    intros k Hk. destruct (H2 _ Hk) as [Hb | ?]; auto.
Qed.

Lemma origin_frame_same_plugins ms st st' :
  plugin_modules (reg st') = plugin_modules (reg st) ->
  plugins (reg st') = plugins (reg st) ->
  origin_frame ms st st'.
Proof. intros Hm Hp. split; [assumption|]. intros k Hk. rewrite Hp in Hk. auto. Qed.

Lemma init_plugin_origin ms disabled plugin :
  In plugin ms ->
  keeps (origin_frame ms) any_event any_exn (init_plugin disabled plugin).
Proof.
  intros Hin. unfold init_plugin, get_db_setting, get_plugin_error, log_plugin_error,
    add_inactive.
  destruct (construct plugin) as [i | path message] eqn:Hc; frame_tac;
    try (intros; apply origin_frame_same_plugins; reflexivity).
  all: unfold add_plugin; apply keeps_modify; try typeclasses eauto.
  all: intros st; split; [reflexivity|]; intros k Hk; simpl in Hk;
    apply dict_set_keys_inv in Hk as [-> | Hk]; [right; exists plugin, i; auto | auto].
Qed.

(** The frame of a load on a registry whose discovery list is [ms]. *)
Definition origin_of (ms : list PluginClass) (st st' : State H) : Prop :=
  plugin_modules (reg st) = ms -> plugin_modules (reg st') = ms /\ origin ms st st'.

#[local] Instance origin_of_Frame ms : Frame (origin_of ms).
Proof.
  split; unfold origin_of, origin.
  - intros st Hm. split; auto.
  - intros a b c H1 H2 Hm. destruct (H1 Hm) as [Hmb Hb]. destruct (H2 Hmb) as [Hmc Hc].
    split; [assumption|]. intros k Hk. destruct (Hc _ Hk) as [Hkb | ?]; auto.
Qed.

Lemma origin_of_same_plugins ms st st' :
  plugin_modules (reg st') = plugin_modules (reg st) ->
  incl (keys (plugins (reg st'))) (keys (plugins (reg st))) ->
  origin_of ms st st'.
Proof.
  intros Hm Hp Hms. split; [congruence|]. intros k Hk. left. apply Hp. assumption.
Qed.

Lemma init_plugins_origin ms disabled :
  keeps (origin_of ms) any_event any_exn (_init_plugins disabled).
Proof.
  intros st o st' t Hrun. split; [|split; [apply Forall_forall; intros; exact I
                                          | intros; exact I]].
  intros Hms. unfold _init_plugins, bind, emit, gets in Hrun.
  destruct (for_each _ _ st) as [[o1 s1] t1] eqn:Hloop.
  assert (Hk : keeps (origin_frame ms) any_event any_exn
                 (for_each (plugin_modules (reg st)) (init_plugin disabled))).
  { apply keeps_for_each; try typeclasses eauto. intros c Hc. apply init_plugin_origin.
    rewrite <- Hms. assumption. }
  destruct (Hk _ _ _ _ Hloop) as ([Hm Ho] & _).
  destruct o1; inversion Hrun; subst; (split; [congruence | assumption]).
Qed.

Lemma activate_plugins_origin ms force :
  keeps (origin_of ms) any_event any_exn (_activate_plugins force).
Proof.
  apply keeps_weaken with (R := act_frame) (P := activation_event) (E := any_exn);
    [ | firstorder | auto | apply activate_plugins_frame].
  intros a b Hab. unfold act_frame, same in Hab. injection Hab as Hp _ Hm _ _ _.
  apply origin_of_same_plugins; [assumption | rewrite Hp; apply incl_refl].
Qed.

Lemma load_loop_origin ms retry_counter blocked :
  keeps (origin_of ms) any_event any_exn (load_loop retry_counter blocked).
Proof.
  apply load_loop_keeps; try typeclasses eauto. intros rc b.
  apply load_turn_keeps; try typeclasses eauto; try exact I;
    auto using init_plugins_origin, activate_plugins_origin.
  - intros p m. unfold log_plugin_error. apply keeps_modify; try typeclasses eauto.
    intros st. apply origin_of_same_plugins; [reflexivity | apply incl_refl].
  - unfold _clean_registry. apply keeps_modify; try typeclasses eauto.
    intros st. apply origin_of_same_plugins; [reflexivity | intros x []].
  - apply clean_installed_apps_keeps; try typeclasses eauto; try exact I.
    intros st v w. apply origin_of_same_plugins; [reflexivity | apply incl_refl].
  - intros; exact I.
Qed.

(** X14.  After a load, whatever its outcome, every key of the active map
    was in it before the load or is the slug of an instance that one of
    the discovered classes constructs: a plugin whose constructor raises
    never becomes active. *)
Theorem active_keys_are_constructed st k :
  In k (keys (plugins (reg (snd (fst (load_plugins st)))))) ->
  In k (keys (plugins (reg st))) \/
  exists c i, In c (plugin_modules (reg st)) /\ construct c = InstOk i /\ slug i = k.
Proof.
  rewrite load_plugins_run.
  destruct (load_loop (PLUGIN_RETRY env) None (load_entry st)) as [[o st1] t1] eqn:Hloop.
  destruct (load_loop_origin (plugin_modules (reg st)) _ _ _ Hloop) as (Horigin & _).
  assert (Hentry : reg (load_entry st) = reg st)
    by (unfold load_entry; destruct (maintenance_mode (host st)); reflexivity).
  destruct Horigin as [_ Ho]; [rewrite Hentry; reflexivity|].
  unfold origin in Ho. rewrite Hentry in Ho.
  destruct o; destruct (maintenance_mode (host st)); simpl; apply Ho.
Qed.

(** *** The registry invariant *)

(** No key occurs twice in the two maps taken together: each map has its
    keys once, and no key is in both. *)
Definition maps_disjoint (st : State H) : Prop :=
  NoDup (keys (plugins (reg st)) ++ keys (plugins_inactive (reg st))).

(** Every recorded app path is the path of an active plugin with the app
    mixin. *)
Definition apps_of_active (st : State H) : Prop :=
  forall x, In x (installed_apps (reg st)) ->
    exists k p, In (k, p) (plugins (reg st)) /\ mixin_enabled p "app" = true /\
                _get_plugin_path p = x.

(** A registry as __init__ or unload_plugins leaves it. *)
Definition clean (st : State H) : Prop :=
  plugins (reg st) = [] /\ plugins_inactive (reg st) = [] /\ installed_apps (reg st) = [].

(** The discovered classes have pairwise distinct keys, and an instance
    carries the key of its class as its slug. *)
Definition well_slugged (ms : list PluginClass) : Prop :=
  NoDup (map plug_key_of ms) /\
  forall c i, In c ms -> construct c = InstOk i -> slug i = plug_key_of c.

Lemma keys_dict_set_fresh {V} k (v : V) d :
  ~ In k (keys d) -> keys (dict_set k v d) = keys d ++ [k].
Proof.
  intros Hk. rewrite dict_set_fresh by exact Hk. unfold keys. rewrite map_app. reflexivity.
Qed.

(** What one turn of the loop of _init_plugins does to the two maps. *)
Lemma init_plugin_maps disabled plugin st o st' t :
  (forall i, construct plugin = InstOk i -> slug i = plug_key_of plugin) ->
  init_plugin disabled plugin st = (o, st', t) ->
  (plugins (reg st') = plugins (reg st) /\
   plugins_inactive (reg st') = plugins_inactive (reg st)) \/
  (plugins (reg st') = plugins (reg st) /\
   exists v, plugins_inactive (reg st')
             = dict_set (plug_key_of plugin) v (plugins_inactive (reg st))) \/
  (plugins_inactive (reg st') = plugins_inactive (reg st) /\
   exists v, plugins (reg st') = dict_set (plug_key_of plugin) v (plugins (reg st))).
Proof.
  intros Hslug. unfold init_plugin, get_db_setting. intros Hrun.
  assert (Hget : keeps (same (fun st => (plugins (reg st), plugins_inactive (reg st))))
                       any_event any_exn
                       (get_db_setting (plug_key_of plugin) (PLUGIN_NAME plugin)))
    by (unfold get_db_setting; frame_tac).
  assert (Hsave : forall c, keeps (same (fun st => (plugins (reg st),
                                                     plugins_inactive (reg st))))
                                  any_event any_exn (save_config c))
    by (intros c; frame_tac).
  fold (get_db_setting (plug_key_of plugin) (PLUGIN_NAME plugin)) in Hrun.
  unfold bind at 1 in Hrun.
  destruct (get_db_setting _ _ st) as [[[cfg|e] s1] t1] eqn:Hcfg;
    destruct (Hget _ _ _ _ Hcfg) as (Hsame1 & _); injection Hsame1 as Hp1 Hi1.
  2: { inversion Hrun; subst. left. auto. }
  destruct (PLUGIN_TESTING env || config_is_active cfg).
  - destruct (is_blocked disabled plugin).
    + unfold bind at 1 in Hrun.
      match type of Hrun with
      | context [match ?m s1 with _ => _ end] =>
          assert (Hq : keeps (same (fun st => (plugins (reg st),
                                               plugins_inactive (reg st))))
                             any_event any_exn m)
            by (destruct (negb (PLUGIN_TESTING env)); [destruct cfg|]; frame_tac);
          destruct (m s1) as [[[q|e] s2] t2] eqn:Hquar
      end;
        destruct (Hq _ _ _ _ Hquar) as (Hsame2 & _); injection Hsame2 as Hp2 Hi2.
      * unfold add_inactive, modify in Hrun. inversion Hrun; subst. simpl.
        right. left. split; [congruence|]. exists q. congruence.
      * inversion Hrun; subst. left. split; congruence.
    + unfold bind, emit in Hrun.
      destruct (construct plugin) as [i | path message] eqn:Hc.
      * unfold add_plugin, modify in Hrun. inversion Hrun; subst. simpl.
        right. right. split; [assumption|]. eexists.
        rewrite <- (Hslug _ eq_refl), Hp1. reflexivity.
      * unfold get_plugin_error, log_plugin_error, bind, modify, raise in Hrun.
        inversion Hrun; subst. simpl. left. auto.
  - unfold add_inactive, modify in Hrun. inversion Hrun; subst. simpl.
    right. left. split; [assumption|]. exists cfg. congruence.
Qed.

Lemma init_plugin_disjoint disabled plugin st o st' t :
  (forall i, construct plugin = InstOk i -> slug i = plug_key_of plugin) ->
  init_plugin disabled plugin st = (o, st', t) ->
  ~ In (plug_key_of plugin)
       (keys (plugins (reg st)) ++ keys (plugins_inactive (reg st))) ->
  maps_disjoint st ->
  maps_disjoint st' /\
  incl (keys (plugins (reg st')) ++ keys (plugins_inactive (reg st')))
       (plug_key_of plugin :: keys (plugins (reg st)) ++ keys (plugins_inactive (reg st))).
Proof.
  intros Hslug Hrun Hfresh Hnd. unfold maps_disjoint in *.
  assert (Hfp : ~ In (plug_key_of plugin) (keys (plugins (reg st))))
    by (intros Hin; apply Hfresh, in_or_app; auto).
  assert (Hfi : ~ In (plug_key_of plugin) (keys (plugins_inactive (reg st))))
    by (intros Hin; apply Hfresh, in_or_app; auto).
  destruct (init_plugin_maps _ _ _ Hslug Hrun)
    as [[Hp Hi] | [[Hp [v Hi]] | [Hi [v Hp]]]]; rewrite Hp, Hi.
  - split; [assumption | apply incl_tl, incl_refl].
  - rewrite keys_dict_set_fresh by exact Hfi. split.
    + rewrite app_assoc. eapply Permutation_NoDup; [apply Permutation_cons_append|].
      constructor; assumption.
    + rewrite app_assoc. intros x Hx. apply in_app_or in Hx as [Hx | [<- | []]];
        [right; assumption | left; reflexivity].
  - rewrite keys_dict_set_fresh by exact Hfp. split.
    + rewrite <- app_assoc. simpl. eapply Permutation_NoDup; [apply Permutation_middle|].
      constructor; assumption.
    + rewrite <- app_assoc. simpl. intros x Hx.
      apply in_app_or in Hx as [Hx | [<- | Hx]];
        [right; apply in_or_app; auto | left; reflexivity | right; apply in_or_app; auto].
Qed.

Lemma init_each_disjoint disabled rest : forall done st o st' t,
  NoDup (map plug_key_of (done ++ rest)) ->
  (forall c i, In c rest -> construct c = InstOk i -> slug i = plug_key_of c) ->
  maps_disjoint st ->
  incl (keys (plugins (reg st)) ++ keys (plugins_inactive (reg st)))
       (map plug_key_of done) ->
  for_each rest (init_plugin disabled) st = (o, st', t) ->
  maps_disjoint st'.
Proof.
  induction rest as [|c rest IH]; intros done st o st' t Hnd Hslug Hdis Hincl; simpl.
  - intros Heq; inversion Heq; subst. assumption.
  - unfold bind.
    destruct (init_plugin disabled c st) as [[[[]|e] s1] t1] eqn:Hone.
    + assert (Hfresh : ~ In (plug_key_of c)
                         (keys (plugins (reg st)) ++ keys (plugins_inactive (reg st)))).
      { intros Hin. apply Hincl in Hin. rewrite map_app in Hnd. simpl in Hnd.
        apply NoDup_remove_2 in Hnd. apply Hnd, in_or_app. auto. }
      destruct (init_plugin_disjoint disabled c (fun i => Hslug c i (or_introl eq_refl))
                  Hone Hfresh Hdis) as [Hdis1 Hincl1].
      destruct (for_each rest (init_plugin disabled) s1) as [[o2 s2] t2] eqn:Hrest.
      intros Heq; inversion Heq; subst.
      eapply (IH (done ++ [c]) s1); [ | | exact Hdis1 | | exact Hrest].
      * rewrite <- app_assoc. assumption.
      * intros c' i Hc'. apply Hslug. right. assumption.
      * intros x Hx. apply Hincl1 in Hx. rewrite map_app. simpl.
        destruct Hx as [<- | Hx]; apply in_or_app; [right; left; reflexivity | auto].
    + assert (Hfresh : ~ In (plug_key_of c)
                         (keys (plugins (reg st)) ++ keys (plugins_inactive (reg st)))).
      { intros Hin. apply Hincl in Hin. rewrite map_app in Hnd. simpl in Hnd.
        apply NoDup_remove_2 in Hnd. apply Hnd, in_or_app. auto. }
      destruct (init_plugin_disjoint disabled c (fun i => Hslug c i (or_introl eq_refl))
                  Hone Hfresh Hdis) as [Hdis1 _].
      intros Heq; inversion Heq; subst. assumption.
Qed.

(** A pass of _init_plugins on empty maps leaves them disjoint. *)
Lemma init_plugins_disjoint disabled st o st' t :
  well_slugged (plugin_modules (reg st)) ->
  clean st ->
  _init_plugins disabled st = (o, st', t) ->
  maps_disjoint st' /\ installed_apps (reg st') = [] /\
  plugin_modules (reg st') = plugin_modules (reg st).
Proof.
  intros [Hnd Hslug] (Hp & Hi & Hia) Hrun.
  destruct (init_plugins_frame _ _ Hrun) as (Hframe & _).
  unfold init_frame, same in Hframe.
  injection Hframe as Hia' _ _ _ _ _ Hmods _ _ _ _ _ _.
  split; [|split; congruence].
  unfold _init_plugins, bind, emit, gets in Hrun.
  destruct (for_each _ _ st) as [[o1 s1] t1] eqn:Hloop.
  assert (Hdis : maps_disjoint s1).
  { eapply (init_each_disjoint disabled (plugin_modules (reg st)) []);
      [exact Hnd | exact Hslug | | | exact Hloop].
    - unfold maps_disjoint. rewrite Hp, Hi. constructor.
    - rewrite Hp, Hi. intros x []. }
  destruct o1; inversion Hrun; subst; assumption.
Qed.

(** Activation keeps the maps and records only apps of active plugins. *)
Lemma activate_plugins_invariant force st o st' t :
  maps_disjoint st -> apps_of_active st ->
  _activate_plugins force st = (o, st', t) ->
  maps_disjoint st' /\ apps_of_active st' /\
  plugin_modules (reg st') = plugin_modules (reg st).
Proof.
  intros Hdis Happs Hrun.
  destruct (activate_plugins_frame _ _ Hrun) as (Hframe & _).
  unfold act_frame, same in Hframe. injection Hframe as Hp Hi Hm _ _ _.
  split; [unfold maps_disjoint in *; rewrite Hp, Hi; assumption|].
  split; [|assumption].
  rewrite activate_plugins_run in Hrun.
  assert (Hpre : keeps installed_frame any_event any_exn
                   (activate_integration_settings (plugins (reg st)))).
  { unfold activate_integration_settings. frame_tac. }
  assert (Hsched : keeps installed_frame any_event any_exn
                     (activate_integration_schedule (plugins (reg st)))).
  { unfold activate_integration_schedule. frame_tac. apply register_all_installed. }
  assert (Hgoal : forall s,
             (exists added,
                 installed_apps (reg s) = installed_apps (reg st) ++ added /\
                 forall x, In x added ->
                   exists k p, In (k, p) (plugins (reg st)) /\
                               mixin_enabled p "app" = true /\ _get_plugin_path p = x) ->
             plugins (reg s) = plugins (reg st) -> apps_of_active s).
  { intros s (added & Hia & Hadded) Hps x Hx. rewrite Hps. rewrite Hia in Hx.
    apply in_app_or in Hx as [Hx | Hx]; [apply Happs; assumption | auto]. }
  apply Hgoal; [|assumption].
  unfold bind at 1 in Hrun.
  destruct (activate_integration_settings _ st) as [[[[]|e] s1] t1] eqn:H1;
    destruct (Hpre _ _ _ _ H1) as (Hf1 & _); injection Hf1 as Hia1 HIA1.
  2: { inversion Hrun; subst. exists []. rewrite app_nil_r. split; [auto | intros x []]. }
  unfold bind at 1 in Hrun.
  destruct (activate_integration_schedule _ s1) as [[[[]|e] s2] t2] eqn:H2;
    destruct (Hsched _ _ _ _ H2) as (Hf2 & _); injection Hf2 as Hia2 HIA2.
  2: { inversion Hrun; subst. exists []. rewrite app_nil_r.
       split; [congruence | intros x []]. }
  destruct (activate_integration_app _ force s2) as [[o3 s3] t3] eqn:H3.
  destruct (app_activation_run _ _ _ H3) as [_ Hia3].
  inversion Hrun; subst.
  eexists. split; [rewrite Hia3, Hia2, Hia1; reflexivity|].
  destruct apps_enabled; [|intros x []].
  intros x Hx. apply new_app_paths_fresh in Hx as [_ Hx]. exact Hx.
Qed.

(** The state in which the handler of the retry loop re-activates. *)
Definition handler_state (path message : string) (st : State H) : State H :=
  upd_reg (set_installed_apps [])
    (upd_host
       (set_INSTALLED_APPS
          (fold_left clean_step (installed_apps (reg st)) (INSTALLED_APPS (host st))))
       (upd_reg (fun r => set_plugins_inactive [] (set_plugins [] r))
          (upd_reg (fun r => set_errors (dict_set path message (errors r)) r) st))).

Lemma handler_prefix {A} path message (k : M H A) st :
  (log_plugin_error path message ;; _clean_registry ;; _clean_installed_apps ;; k) st =
  after [EvCleanInstalledApps] (k (handler_state path message st)).
Proof.
  unfold log_plugin_error, _clean_registry, _clean_installed_apps, bind, modify,
    handler_state, after, clean_step.
  simpl. destruct (k _) as [[o s] t]. reflexivity.
Qed.

(** The handler of the retry loop leaves a clean registry. *)
Lemma handler_cleans path message retry_counter st o st' t :
  (log_plugin_error path message ;;
   _clean_registry ;;
   _clean_installed_apps ;;
   _activate_plugins true ;;
   if (retry_counter - 1 <=? 0)%Z then ret (Leave MaxRetries)
   else ret (Again path)) st = (o, st', t) ->
  clean st' /\ plugin_modules (reg st') = plugin_modules (reg st).
Proof.
  rewrite handler_prefix. set (s0 := handler_state path message st).
  assert (Hp : plugins (reg s0) = []) by reflexivity.
  unfold bind.
  destruct (_activate_plugins true s0) as [[[[]|e] s1] t1] eqn:Hact;
    destruct (activate_plugins_frame _ _ Hact) as (Hframe & _);
    destruct (activate_nothing_installed _ _ Hp Hact) as [Hia1 _];
    unfold act_frame, same in Hframe; injection Hframe as Hp1 Hi1 Hm1 _ _ _.
  - destruct (retry_counter - 1 <=? 0)%Z; simpl; intros Heq; inversion Heq; subst;
      unfold clean; repeat split; try congruence; rewrite Hia1; reflexivity.
  - simpl. intros Heq; inversion Heq; subst. unfold clean; repeat split; try congruence.
    rewrite Hia1. reflexivity.
Qed.

Lemma clean_invariant st : clean st -> maps_disjoint st /\ apps_of_active st.
Proof.
  intros (Hp & Hi & Hia). unfold maps_disjoint, apps_of_active.
  rewrite Hp, Hi, Hia. split; [constructor | intros x []].
Qed.

(** One turn of the retry loop, started on a clean registry. *)
Lemma load_turn_invariant retry_counter blocked st o st' t :
  well_slugged (plugin_modules (reg st)) ->
  clean st ->
  load_turn retry_counter blocked st = (o, st', t) ->
  maps_disjoint st' /\ apps_of_active st' /\
  plugin_modules (reg st') = plugin_modules (reg st) /\
  (forall path, o = Ok (Again path) -> clean st').
Proof.
  intros Hws Hclean. unfold load_turn, try_except.
  destruct (bind (_init_plugins blocked) _ st) as [[ob sb] tb] eqn:Hbody.
  assert (Hb : maps_disjoint sb /\ apps_of_active sb /\
               plugin_modules (reg sb) = plugin_modules (reg st)).
  { unfold bind at 1 in Hbody.
    destruct (_init_plugins blocked st) as [[[[]|e] s1] t1] eqn:Hinit;
      destruct (init_plugins_disjoint _ Hws Hclean Hinit) as (Hd1 & Hia1 & Hm1).
    - assert (Ha1 : apps_of_active s1) by (intros x Hx; rewrite Hia1 in Hx; destruct Hx).
      unfold bind at 1 in Hbody.
      destruct (_activate_plugins false s1) as [[[[]|e] s2] t2] eqn:Hact;
        destruct (activate_plugins_invariant _ Hd1 Ha1 Hact) as (? & ? & ?);
        inversion Hbody; subst; repeat split; auto; congruence.
    - inversion Hbody; subst. repeat split; auto.
      intros x Hx. rewrite Hia1 in Hx. destruct Hx. }
  destruct Hb as (Hdb & Hab & Hmb).
  destruct ob as [x|e].
  - intros Heq; inversion Heq; subst. split; [auto | split; [auto | split; [auto|]]].
    intros q Hq. inversion Hq; subst. exfalso.
    unfold bind in Hbody.
    destruct (_init_plugins blocked st) as [[[[]|?] ?] ?]; [|discriminate].
    destruct (_activate_plugins false _) as [[[[]|?] ?] ?]; discriminate.
  - destruct e;
      try (intros Heq; inversion Heq; subst;
           split; [auto | split; [auto | split; [auto | intros; discriminate]]]).
    match goal with
    | |- context [bind ?m ?k sb] =>
        destruct (bind m k sb) as [[oh sh] th] eqn:Hh
    end.
    destruct (handler_cleans _ _ _ _ Hh) as [Hc Hm].
    destruct (clean_invariant Hc) as [Hd Ha].
    intros Heq; inversion Heq; subst.
    split; [auto | split; [auto | split; [congruence | auto]]].
Qed.

Lemma load_loop_invariant retry_counter blocked st :
  well_slugged (plugin_modules (reg st)) ->
  clean st ->
  maps_disjoint (snd (fst (load_loop retry_counter blocked st))) /\
  apps_of_active (snd (fst (load_loop retry_counter blocked st))).
Proof.
  apply (load_loop_induction
           (fun rc b st r => well_slugged (plugin_modules (reg st)) -> clean st ->
                             maps_disjoint (snd (fst r)) /\ apps_of_active (snd (fst r)))).
  - intros rc b s x s1 t1 Hturn Hws Hc.
    destruct (load_turn_invariant _ _ Hws Hc Hturn) as (? & ? & _). simpl. auto.
  - intros rc b s e s1 t1 Hturn Hws Hc.
    destruct (load_turn_invariant _ _ Hws Hc Hturn) as (? & ? & _). simpl. auto.
  - intros rc b s path s1 t1 Hturn _ IH Hws Hc.
    destruct (load_turn_invariant _ _ Hws Hc Hturn) as (_ & _ & Hm & Hagain).
    destruct (load_loop (rc - 1) (Some path) s1) as [[o2 s2] t2]. simpl in *.
    apply IH; [rewrite Hm; assumption | apply (Hagain path); reflexivity].
Qed.

(** X15.  A load that starts on a clean registry (both maps and the
    recorded apps empty, as after __init__ or unload_plugins), with
    discovered classes of pairwise distinct keys whose instances carry
    the key as their slug, ends, whatever its outcome, in a state where
    no key is in both maps and every recorded app path is the path of an
    active plugin with the app mixin. *)
Theorem load_plugins_establishes_invariant st :
  well_slugged (plugin_modules (reg st)) ->
  clean st ->
  maps_disjoint (snd (fst (load_plugins st))) /\
  apps_of_active (snd (fst (load_plugins st))).
Proof.
  intros Hws Hc. rewrite load_plugins_run.
  assert (Hentry : reg (load_entry st) = reg st)
    by (unfold load_entry; destruct (maintenance_mode (host st)); reflexivity).
  assert (Hinv : maps_disjoint (snd (fst (load_loop (PLUGIN_RETRY env) None (load_entry st))))
                 /\ apps_of_active
                      (snd (fst (load_loop (PLUGIN_RETRY env) None (load_entry st))))).
  { apply load_loop_invariant.
    - rewrite Hentry. assumption.
    - unfold clean in *. rewrite Hentry. assumption. }
  destruct (load_loop _ _ _) as [[[x|e] st1] t1]; simpl in *;
    destruct (maintenance_mode (host st)); simpl; exact Hinv.
Qed.

(** *** Quarantine convergence *)

(** [m], started in a state of [I], returns without an exception, with a
    result and in a state of [Q]. *)
Definition returns {A} (I : State H -> Prop) (m : M H A) (Q : A -> State H -> Prop) : Prop :=
  forall st, I st -> exists a st' t, m st = (Ok a, st', t) /\ Q a st'.

Lemma returns_ret {A} (I : State H -> Prop) (a : A) (Q : A -> State H -> Prop) :
  (forall st, I st -> Q a st) -> returns I (ret a) Q.
Proof. intros HQ st Hst. exists a, st, []. split; [reflexivity | auto]. Qed.

Lemma returns_bind {A B} (I : State H -> Prop) (m : M H A) (k : A -> M H B) Q R :
  returns I m Q -> (forall a, returns (Q a) (k a) R) -> returns I (bind m k) R.
Proof.
  intros Hm Hk st Hst. destruct (Hm st Hst) as (a & s1 & t1 & Hrun & Ha).
  destruct (Hk a s1 Ha) as (b & s2 & t2 & Hrun2 & Hb).
  exists b, s2, (t1 ++ t2). split; [|assumption].
  unfold bind. rewrite Hrun, Hrun2. reflexivity.
Qed.

Lemma returns_seq {A B} (I : State H -> Prop) (m : M H A) (k : A -> M H B) R :
  returns I m (fun _ => I) -> (forall a, returns I (k a) R) -> returns I (bind m k) R.
Proof. intros Hm Hk. eapply returns_bind; [exact Hm | exact Hk]. Qed.

Lemma returns_gets {A} (I : State H -> Prop) (g : State H -> A) Q :
  (forall st, I st -> Q (g st) st) -> returns I (gets g) Q.
Proof. intros HQ st Hst. exists (g st), st, []. split; [reflexivity | auto]. Qed.

Lemma returns_emit (I : State H -> Prop) e Q :
  (forall st, I st -> Q tt st) -> returns I (emit e) Q.
Proof. intros HQ st Hst. exists tt, st, [e]. split; [reflexivity | auto]. Qed.

Lemma returns_modify (I : State H -> Prop) f Q :
  (forall st, I st -> Q tt (f st)) -> returns I (modify f) Q.
Proof. intros HQ st Hst. exists tt, (f st), []. split; [reflexivity | auto]. Qed.

Lemma returns_try_except {A} (I : State H -> Prop) (m : M H A) handler Q :
  returns I m Q -> returns I (try_except m handler) Q.
Proof.
  intros Hm st Hst. destruct (Hm st Hst) as (a & s1 & t1 & Hrun & Ha).
  exists a, s1, t1. split; [|assumption]. unfold try_except. rewrite Hrun. reflexivity.
Qed.

Lemma returns_for_each {A} (I : State H -> Prop) (l : list A) body :
  (forall x, In x l -> returns I (body x) (fun _ => I)) ->
  returns I (for_each l body) (fun _ => I).
Proof.
  induction l as [|x l IH]; intros Hbody; simpl.
  - apply returns_ret. auto.
  - apply returns_seq; [apply Hbody; simpl; auto|].
    intros _. apply IH. intros y Hy. apply Hbody. simpl. auto.
Qed.

Lemma returns_for_each_break {A} (I : State H -> Prop) (l : list A) body :
  (forall x, In x l -> returns I (body x) (fun _ => I)) ->
  returns I (for_each_break l body) (fun _ => I).
Proof.
  induction l as [|x l IH]; intros Hbody; simpl.
  - apply returns_ret. auto.
  - apply returns_seq; [apply Hbody; simpl; auto|].
    intros [|]; [|apply returns_ret; auto].
    apply IH. intros y Hy. apply Hbody. simpl. auto.
Qed.

(** A loop whose invariant depends on the elements already visited. *)
Lemma returns_for_each_indexed {A} (Inv : list A -> State H -> Prop) (l : list A) body :
  (forall done x rest, l = done ++ x :: rest ->
                       returns (Inv done) (body x) (fun _ => Inv (done ++ [x]))) ->
  returns (Inv []) (for_each l body) (fun _ => Inv l).
Proof.
  intros Hbody.
  assert (G : forall rest done, l = done ++ rest ->
                returns (Inv done) (for_each rest body) (fun _ => Inv l)).
  { induction rest as [|x rest IH]; intros done Hl; simpl.
    - apply returns_ret. rewrite app_nil_r in Hl. subst. auto.
    - eapply returns_bind; [apply (Hbody done x rest Hl)|].
      intros u. apply IH. rewrite <- app_assoc. exact Hl. }
  apply (G l []). reflexivity.
Qed.

Lemma for_each_app_ok {A} (l1 l2 : list A) body : forall (st st1 : State H) t1,
  for_each l1 body st = (Ok tt, st1, t1) ->
  for_each (l1 ++ l2) body st = after t1 (for_each l2 body st1).
Proof.
  induction l1 as [|x l1 IH]; intros st st1 t1; simpl.
  - unfold ret. intros Heq; inversion Heq; subst.
    unfold after. destruct (for_each l2 body st1) as [[o s] t]. reflexivity.
  - intros Hrun. apply bind_ok in Hrun as ([] & s & ta & tb & Hx & Hrest & ->).
    erewrite bind_run_ok by exact Hx. rewrite (IH _ _ _ Hrest).
    unfold after. destruct (for_each l2 body st1) as [[o s'] t].
    rewrite app_assoc. reflexivity.
Qed.

(** The database is reachable, and the table, the discovery list and the
    two maps are the given ones. *)
Definition settled (T : list PluginConfig) (ms : list PluginClass)
           (P : dict PluginInstance) (Q : dict (option PluginConfig)) (st : State H) : Prop :=
  db_ready (host st) = true /\ plugin_configs (host st) = T /\
  plugin_modules (reg st) = ms /\ plugins (reg st) = P /\ plugins_inactive (reg st) = Q.

Ltac settled_tac :=
  unfold settled in *; simpl in *; intuition (try congruence).

Ltac settled_step :=
  match goal with
  | |- returns _ (bind _ _) _ => apply returns_seq; [|intros ?]
  | |- returns _ (ret _) _ => apply returns_ret; intros ? ?
  | |- returns _ (gets _) _ => apply returns_gets; intros ? ?
  | |- returns _ (emit _) _ => apply returns_emit; intros ? ?
  | |- returns _ (modify _) _ => apply returns_modify; intros ? ?
  | |- returns _ (for_each _ _) _ => apply returns_for_each; intros ? ?
  | |- returns _ (for_each_break _ _) _ => apply returns_for_each_break; intros ? ?
  | |- returns _ (if ?b then _ else _) _ => destruct b
  | |- returns _ (let '(_, _) := ?x in _) _ => destruct x
  | |- settled _ _ _ _ _ => solve [settled_tac]
  end.

Section Activation.
Variables (T : list PluginConfig) (ms : list PluginClass).
Variables (P : dict PluginInstance) (Q : dict (option PluginConfig)).

(** The host can load every list of apps. *)
Hypothesis Hpopulate : forall l h, fst (apps_populate l h) = None.
Hypothesis Hset : forall l h, fst (apps_set_installed_apps l h) = None.

Abbreviation steady m := (returns (settled T ms P Q) m (fun _ => settled T ms P Q)).

Lemma register_task_settled name : steady (register_task name).
Proof.
  intros st Hst. unfold register_task.
  destruct (mem name (schedules (host st))); do 3 eexists; (split; [reflexivity|]);
    settled_tac.
Qed.

Lemma plugin_config_settled p row :
  find (config_matches (slug p) (inst_name p)) T = Some row ->
  steady (plugin_config p).
Proof.
  intros Hfind st Hst. unfold plugin_config, try_except, bind, get_or_create.
  destruct Hst as (Hdb & Ht & Hrest). rewrite Hdb, Ht, Hfind. simpl.
  do 3 eexists. split; [reflexivity|]. unfold settled. auto.
Qed.

Lemma register_all_settled plugins :
  (forall k p, In (k, p) plugins ->
               exists row, find (config_matches (slug p) (inst_name p)) T = Some row) ->
  forall task_keys, steady (register_all plugins task_keys).
Proof.
  induction plugins as [|[k p] plugins IH]; intros Hrows task_keys; simpl.
  - settled_step. assumption.
  - assert (Hlater : forall k' p', In (k', p') plugins ->
              exists row, find (config_matches (slug p') (inst_name p')) T = Some row)
      by (intros k' p' Hin; apply (Hrows k' p'); simpl; auto).
    destruct (Hrows k p) as [row Hrow]; [simpl; auto|].
    destruct (mixin_enabled p "schedule"); [|apply IH; assumption].
    apply returns_seq; [apply (plugin_config_settled _ Hrow)|].
    intros config. destruct (config_is_active config); [|apply IH; assumption].
    apply returns_seq; [|intros _; apply IH; assumption].
    unfold register_tasks. repeat settled_step; try assumption.
    apply register_task_settled.
Qed.

Lemma remove_stale_tasks_settled task_keys : steady (remove_stale_tasks task_keys).
Proof.
  intros st Hst. unfold remove_stale_tasks.
  destruct (db_ready (host st)); do 3 eexists; (split; [reflexivity|]); settled_tac.
Qed.

Lemma install_apps_settled plugins : forall changed, steady (install_apps plugins changed).
Proof.
  induction plugins as [|[k p] plugins IH]; intros changed; simpl.
  - settled_step. assumption.
  - repeat settled_step; try assumption; auto.
Qed.

Lemma try_reload_settled cmd args :
  (forall l h, fst (cmd l h) = None) -> steady (_try_reload cmd args).
Proof.
  intros Hquiet st Hst. unfold _try_reload.
  specialize (Hquiet args (apps (host st))).
  destruct (cmd args (apps (host st))) as [r a]. simpl in Hquiet. subst r.
  do 3 eexists. split; [reflexivity|]. settled_tac.
Qed.

Lemma reload_apps_settled force : steady (_reload_apps force).
Proof.
  unfold _reload_apps.
  repeat settled_step; try assumption; auto using try_reload_settled.
Qed.

Lemma reregister_app_settled plugin_path : steady (reregister_app plugin_path).
Proof. unfold reregister_app. repeat settled_step; try assumption. Qed.

Lemma activate_plugins_settled force :
  (forall k p, In (k, p) P ->
               exists row, find (config_matches (slug p) (inst_name p)) T = Some row) ->
  steady (_activate_plugins force).
Proof.
  intros Hrows st Hst. unfold _activate_plugins.
  assert (HP : plugins (reg st) = P) by apply Hst.
  erewrite bind_run_ok by (unfold gets; reflexivity). rewrite HP.
  assert (Hrest : steady (activate_integration_settings P ;;
                          activate_integration_schedule P ;;
                          activate_integration_app P force)).
  { unfold activate_integration_settings, activate_integration_schedule,
      activate_integration_app, _reregister_contrib_apps, _update_urls.
    repeat settled_step; try assumption;
      auto using register_all_settled, remove_stale_tasks_settled, install_apps_settled,
                 reload_apps_settled, reregister_app_settled. }
  destruct (Hrest st Hst) as ([] & st' & t & Hrun & Hst'). rewrite Hrun. simpl.
  do 3 eexists. split; [reflexivity | assumption].
Qed.
End Activation.

Lemma dict_set_In_inv {V} k (v : V) d k' v' :
  In (k', v') (dict_set k v d) -> (k', v') = (k, v) \/ In (k', v') d.
Proof.
  induction d as [|[k0 v0] d IH]; simpl.
  - intros [Heq | []]. auto.
  - destruct (k =? k0)%string; simpl; intros [Heq | Hin]; auto.
    destruct (IH Hin); auto.
Qed.

Lemma NoDup_map_middle {A B} (g : A -> B) done x rest :
  NoDup (map g (done ++ x :: rest)) -> ~ In (g x) (map g done) /\ ~ In (g x) (map g rest).
Proof.
  rewrite map_app. simpl. intros Hnd. apply NoDup_remove_2 in Hnd.
  split; intros Hin; apply Hnd; apply in_or_app; auto.
Qed.

(** The table after the row [row] has been saved as inactive. *)
Definition quarantined_table (row : PluginConfig) (T : list PluginConfig) : list PluginConfig :=
  map (store_row (deactivated row)) T.

Section Quarantine.
Variables (T : list PluginConfig) (f : PluginClass) (row_f : PluginConfig).
Variables (path message : string) (ms : list PluginClass).

Hypothesis Htest : PLUGIN_TESTING env = false.
Hypothesis Hpopulate : forall l h, fst (apps_populate l h) = None.
Hypothesis Hset : forall l h, fst (apps_set_installed_apps l h) = None.
Hypothesis Hrow : find (config_matches (plug_key_of f) (PLUGIN_NAME f)) T = Some row_f.
Hypothesis Hactive : cfg_active row_f = true.
Hypothesis Hpk : forall r, In r T -> cfg_pk r = cfg_pk row_f -> r = row_f.
Hypothesis Hfails : construct f = InstRaises path message.
Hypothesis Hblocked : is_blocked (Some path) f = true.

(** A class other than the failing one: not blocked, activated, and
    instantiable, its instance named as the class announces. *)
Definition loads (c : PluginClass) : Prop :=
  is_blocked (Some path) c = false /\
  plug_key_of c <> plug_key_of f /\
  exists r i,
    find (config_matches (plug_key_of c) (PLUGIN_NAME c)) T = Some r /\
    cfg_active r = true /\
    construct c = InstOk i /\ slug i = plug_key_of c /\ inst_name i = PLUGIN_NAME c.

Lemma row_f_matches : cfg_key row_f = plug_key_of f /\ cfg_name row_f = PLUGIN_NAME f.
Proof. apply find_some in Hrow as [_ Hm]. apply config_matches_inv in Hm. exact Hm. Qed.

Lemma store_row_same r :
  cfg_pk r = cfg_pk row_f -> store_row (deactivated row_f) r = deactivated row_f.
Proof. intros Heq. unfold store_row. simpl. rewrite Heq, Nat.eqb_refl. reflexivity. Qed.

Lemma store_row_other r :
  cfg_pk r <> cfg_pk row_f -> store_row (deactivated row_f) r = r.
Proof.
  intros Hne. unfold store_row. simpl.
  destruct (Nat.eqb_spec (cfg_pk r) (cfg_pk row_f)); [contradiction | reflexivity].
Qed.

Lemma find_other_row key name :
  key <> plug_key_of f ->
  find (config_matches key name) (quarantined_table row_f T)
  = find (config_matches key name) T.
Proof.
  intros Hkey. unfold quarantined_table. destruct row_f_matches as [Hk _].
  assert (Hno : forall r, cfg_key r = plug_key_of f -> config_matches key name r = false).
  { intros r Hr. unfold config_matches. rewrite Hr.
    destruct (String.eqb_spec (plug_key_of f) key); [congruence | reflexivity]. }
  assert (G : forall l, incl l T ->
                find (config_matches key name) (map (store_row (deactivated row_f)) l)
                = find (config_matches key name) l).
  { induction l as [|r l IH]; intros Hincl; simpl; [reflexivity|].
    assert (Hl : incl l T) by (intros x Hx; apply Hincl; simpl; auto).
    destruct (Nat.eq_dec (cfg_pk r) (cfg_pk row_f)) as [Heq | Hne].
    - assert (r = row_f) by (apply Hpk; [apply Hincl; simpl; auto | assumption]).
      subst r. rewrite store_row_same by reflexivity.
      rewrite (Hno (deactivated row_f)) by exact Hk.
      rewrite (Hno row_f) by exact Hk. auto.
    - rewrite store_row_other by exact Hne.
      destruct (config_matches key name r); auto. }
  apply G. apply incl_refl.
Qed.

Lemma find_quarantined_row :
  find (config_matches (plug_key_of f) (PLUGIN_NAME f)) (quarantined_table row_f T)
  = Some (deactivated row_f).
Proof.
  unfold quarantined_table.
  assert (Hm : config_matches (plug_key_of f) (PLUGIN_NAME f) row_f = true)
    by (apply find_some in Hrow as [_ Hm]; exact Hm).
  assert (Hd : config_matches (plug_key_of f) (PLUGIN_NAME f) (deactivated row_f) = true)
    by exact Hm.
  assert (G : forall l, incl l T ->
                find (config_matches (plug_key_of f) (PLUGIN_NAME f)) l = Some row_f ->
                find (config_matches (plug_key_of f) (PLUGIN_NAME f))
                     (map (store_row (deactivated row_f)) l) = Some (deactivated row_f)).
  { induction l as [|r l IH]; intros Hincl; simpl; [discriminate|].
    assert (Hl : incl l T) by (intros x Hx; apply Hincl; simpl; auto).
    destruct (Nat.eq_dec (cfg_pk r) (cfg_pk row_f)) as [Heq | Hne].
    - intros _. rewrite store_row_same by exact Heq. rewrite Hd. reflexivity.
    - rewrite store_row_other by exact Hne.
      destruct (config_matches (plug_key_of f) (PLUGIN_NAME f) r) eqn:Hr.
      + intros Hfind. inversion Hfind; subst r. contradiction Hne. reflexivity.
      + auto. }
  apply G; [apply incl_refl | exact Hrow].
Qed.

Definition table_known (st : State H) : Prop :=
  plugin_configs (host st) = T \/ plugin_configs (host st) = quarantined_table row_f T.

Lemma init_plugin_loads d c st :
  loads c -> is_blocked d c = false -> db_ready (host st) = true -> table_known st ->
  exists p,
    init_plugin d c st =
      (Ok tt, upd_reg (set_plugins (dict_set (plug_key_of c) p (plugins (reg st)))) st,
       [EvInstantiate (cls_name c)]) /\
    slug p = plug_key_of c /\ inst_name p = PLUGIN_NAME c.
Proof.
  intros (_ & Hkey & r & i & Hfind & Hact & Hc & Hs & Hn) Hd Hdb Htable.
  assert (Hfind' : find (config_matches (plug_key_of c) (PLUGIN_NAME c))
                        (plugin_configs (host st)) = Some r).
  { destruct Htable as [-> | ->]; [exact Hfind|].
    rewrite find_other_row by exact Hkey. exact Hfind. }
  exists (bound_instance (cls_is_package c) (Some r) i).
  split; [|split; [exact Hs | exact Hn]].
  unfold init_plugin, get_db_setting, try_except, bind, get_or_create.
  rewrite Hdb, Hfind'. simpl. rewrite Hact, Hd, Hc, Bool.orb_true_r. simpl.
  unfold add_plugin, modify. simpl. rewrite Hs. reflexivity.
Qed.

Lemma init_plugin_raises st :
  db_ready (host st) = true -> plugin_configs (host st) = T ->
  init_plugin None f st =
    (Raise (IntegrationPluginError path message),
     upd_reg (fun r => set_errors (dict_set path message (errors r)) r) st,
     [EvInstantiate (cls_name f)]).
Proof.
  intros Hdb Ht.
  unfold init_plugin, get_db_setting, try_except, bind, get_or_create.
  rewrite Hdb, Ht, Hrow. simpl. rewrite Hactive, Hfails, Bool.orb_true_r. simpl.
  reflexivity.
Qed.

Lemma init_plugin_quarantines st :
  db_ready (host st) = true -> plugin_configs (host st) = T ->
  init_plugin (Some path) f st =
    (Ok tt,
     upd_reg (fun r => set_plugins_inactive
                         (dict_set (plug_key_of f) (Some (deactivated row_f))
                                   (plugins_inactive r)) r)
             (upd_host (set_plugin_configs (quarantined_table row_f T)) st),
     [EvConfigSave (plug_key_of f) false]).
Proof.
  intros Hdb Ht. destruct row_f_matches as [Hk _].
  unfold init_plugin, get_db_setting, try_except, bind, get_or_create.
  rewrite Hdb, Ht, Hrow, Hblocked, Htest. simpl. rewrite Hactive. simpl.
  unfold save_config. rewrite Hdb, Ht. simpl. rewrite Hk. reflexivity.
Qed.

Lemma clean_installed_apps_settled P Q :
  returns (settled T ms P Q) _clean_installed_apps (fun _ => settled T ms P Q).
Proof.
  intros st Hst. unfold _clean_installed_apps. do 3 eexists. split; [reflexivity|].
  unfold settled in *. simpl. exact Hst.
Qed.

(** The first pass stops at the failing class. *)
Lemma first_pass pre post st :
  ms = pre ++ f :: post ->
  (forall c, In c pre -> loads c) ->
  db_ready (host st) = true -> plugin_configs (host st) = T ->
  plugin_modules (reg st) = ms ->
  exists st' t,
    _init_plugins None st = (Raise (IntegrationPluginError path message), st', t) /\
    db_ready (host st') = true /\ plugin_configs (host st') = T /\
    plugin_modules (reg st') = ms.
Proof.
  intros Hms Hpre Hdb Ht Hm.
  set (base := fun s : State H =>
                 db_ready (host s) = true /\ plugin_configs (host s) = T /\
                 plugin_modules (reg s) = ms).
  assert (Hloop : returns base (for_each pre (init_plugin None)) (fun _ => base)).
  { apply returns_for_each. intros c Hc s (Hd & Htab & Hmod).
    destruct (init_plugin_loads None (c := c) (st := s)) as (p & Hrun & _);
      [auto | reflexivity | exact Hd | left; exact Htab |].
    do 3 eexists. split; [exact Hrun|]. unfold base. simpl. auto. }
  destruct (Hloop st) as ([] & s1 & t1 & Hrun & Hd1 & Ht1 & Hm1); [unfold base; auto|].
  unfold _init_plugins.
  erewrite bind_run_ok by (unfold emit; reflexivity).
  erewrite bind_run_ok by (unfold gets; reflexivity).
  rewrite Hm, Hms. erewrite for_each_app_ok by exact Hrun. simpl for_each.
  erewrite bind_run_raise by (apply init_plugin_raises; assumption).
  simpl. do 2 eexists. split; [reflexivity|]. simpl. rewrite <- Hms. auto.
Qed.

(** The first turn of the loop ends in a retry with the failing class
    blocked, on an empty registry. *)
Lemma first_turn retry pre post st :
  (1 < retry)%Z ->
  ms = pre ++ f :: post ->
  (forall c, In c pre -> loads c) ->
  db_ready (host st) = true -> plugin_configs (host st) = T ->
  plugin_modules (reg st) = ms ->
  exists st' t,
    load_turn retry None st = (Ok (Again path), st', t) /\ settled T ms [] [] st'.
Proof.
  intros Hretry Hms Hpre Hdb Ht Hm.
  destruct (first_pass pre post st Hms Hpre Hdb Ht Hm) as (s1 & t1 & Hrun & Hd1 & Ht1 & Hm1).
  set (base := fun s : State H =>
                 db_ready (host s) = true /\ plugin_configs (host s) = T /\
                 plugin_modules (reg s) = ms).
  assert (Hhandler :
            returns base
              (log_plugin_error path message ;;
               _clean_registry ;;
               _clean_installed_apps ;;
               _activate_plugins true ;;
               if (retry - 1 <=? 0)%Z then ret (Leave MaxRetries) else ret (Again path))
              (fun a s => a = Again path /\ settled T ms [] [] s)).
  { eapply returns_bind with (Q := fun _ => base).
    { unfold log_plugin_error. apply returns_modify. intros s Hs. exact Hs. }
    intros _. eapply returns_bind with (Q := fun _ => settled T ms [] []).
    { unfold _clean_registry. apply returns_modify. intros s (Ha & Hb & Hc).
      unfold settled. simpl. auto. }
    intros _. apply returns_seq; [apply clean_installed_apps_settled|].
    intros _. apply returns_seq.
    { apply activate_plugins_settled; [assumption | assumption |]. intros k p []. }
    intros _. destruct (Z.leb_spec (retry - 1) 0); [lia|].
    apply returns_ret. auto. }
  destruct (Hhandler s1) as (a & s2 & t2 & Hrun2 & -> & Hs2); [unfold base; auto|].
  unfold load_turn, try_except.
  erewrite bind_run_raise by exact Hrun. cbv beta iota. rewrite Hrun2.
  do 2 eexists. split; [reflexivity | exact Hs2].
Qed.

Hypothesis Hkeys : NoDup (map plug_key_of ms).
Hypothesis Hall : forall c, In c ms -> c = f \/ loads c.

(** The state of the second pass after the classes [done]. *)
Definition visited (done : list PluginClass) (st : State H) : Prop :=
  db_ready (host st) = true /\ plugin_modules (reg st) = ms /\
  (In (plug_key_of f) (map plug_key_of done) ->
   plugin_configs (host st) = quarantined_table row_f T /\
   plugins_inactive (reg st) = [(plug_key_of f, Some (deactivated row_f))]) /\
  (~ In (plug_key_of f) (map plug_key_of done) ->
   plugin_configs (host st) = T /\ plugins_inactive (reg st) = []) /\
  (forall c, In c done -> plug_key_of c <> plug_key_of f ->
             In (plug_key_of c) (keys (plugins (reg st)))) /\
  (forall k p, In (k, p) (plugins (reg st)) ->
     k <> plug_key_of f /\
     exists row, find (config_matches (slug p) (inst_name p)) (quarantined_table row_f T)
                 = Some row).

Lemma second_pass_step done x rest :
  ms = done ++ x :: rest ->
  returns (visited done) (init_plugin (Some path) x) (fun _ => visited (done ++ [x])).
Proof.
  intros Hms st (Hdb & Hm & Hin & Hout & Hk & Hp).
  assert (Hx : In x ms) by (rewrite Hms; apply in_or_app; simpl; auto).
  assert (Hfresh : ~ In (plug_key_of x) (map plug_key_of done))
    by (rewrite Hms in Hkeys; apply (NoDup_map_middle _ _ _ _ Hkeys)).
  destruct (Hall x Hx) as [-> | Hloads].
  - destruct (Hout Hfresh) as [Ht Hq].
    do 3 eexists. split; [apply init_plugin_quarantines; assumption|].
    unfold visited. simpl. rewrite Hq. simpl.
    split; [assumption|]. split; [assumption|]. split; [auto|]. split.
    { intros Hno. exfalso. apply Hno. rewrite map_app. apply in_or_app. simpl. auto. }
    split; [|exact Hp].
    intros c Hc Hne. apply in_app_or in Hc as [Hc | [<- | []]]; [auto | congruence].
  - assert (Hne : plug_key_of x <> plug_key_of f) by apply Hloads.
    assert (Htable : table_known st).
    { destruct (in_dec string_dec (plug_key_of f) (map plug_key_of done)) as [Hi | Hi];
        [right; apply (Hin Hi) | left; apply (Hout Hi)]. }
    destruct (init_plugin_loads (Some path) (c := x) (st := st)) as (p & Hrun & Hs & Hn);
      [exact Hloads | apply Hloads | exact Hdb | exact Htable |].
    assert (Hiff : In (plug_key_of f) (map plug_key_of (done ++ [x])) <->
                   In (plug_key_of f) (map plug_key_of done)).
    { rewrite map_app, in_app_iff. simpl. intuition congruence. }
    do 3 eexists. split; [exact Hrun|].
    unfold visited. simpl.
    split; [assumption|]. split; [assumption|].
    split; [intros Hi; apply Hin, Hiff, Hi|].
    split; [intros Hi; apply Hout; intros Hi'; apply Hi, Hiff, Hi'|].
    split.
    + intros c Hc Hcne. apply in_app_or in Hc as [Hc | [<- | []]].
      * apply dict_set_keys_incl. auto.
      * apply dict_set_in_keys.
    + intros k p' Hkp. apply dict_set_In_inv in Hkp as [Heq | Hold]; [|auto].
      inversion Heq; subst k p'. split; [exact Hne|].
      destruct Hloads as (_ & _ & r & i & Hfind & _).
      exists r. rewrite Hs, Hn, find_other_row by exact Hne. exact Hfind.
Qed.

Lemma second_pass st :
  settled T ms [] [] st ->
  exists st' t, _init_plugins (Some path) st = (Ok tt, st', t) /\ visited ms st'.
Proof.
  intros (Hdb & Ht & Hm & Hp & Hq).
  destruct (@returns_for_each_indexed _ visited ms (init_plugin (Some path)) second_pass_step st)
    as ([] & s1 & t1 & Hrun & Hv).
  { unfold visited. simpl. rewrite Hp.
    split; [assumption|]. split; [assumption|]. split; [intros []|].
    split; [auto|]. split; [intros c []|intros k p []]. }
  unfold _init_plugins.
  erewrite bind_run_ok by (unfold emit; reflexivity).
  erewrite bind_run_ok by (unfold gets; reflexivity).
  rewrite Hm, Hrun. simpl. eauto.
Qed.

(** The second turn registers every other class and leaves the loop. *)
Lemma second_turn retry st :
  In f ms ->
  settled T ms [] [] st ->
  exists st' t,
    load_turn retry (Some path) st = (Ok (Leave Registered), st', t) /\ visited ms st'.
Proof.
  intros Hf Hst.
  destruct (second_pass Hst) as (s1 & t1 & Hinit & Hdb & Hm & Hin & Hout & Hk & Hp).
  destruct Hin as [Ht Hq]; [apply in_map; exact Hf|].
  destruct (activate_plugins_settled
              (T := quarantined_table row_f T) (ms := ms) (P := plugins (reg s1))
              (Q := [(plug_key_of f, Some (deactivated row_f))])
              Hpopulate Hset false) with (st := s1)
    as ([] & s2 & t2 & Hact & Hdb2 & Ht2 & Hm2 & Hp2 & Hq2).
  { intros k p Hkp. apply (Hp k p Hkp). }
  { unfold settled. auto. }
  unfold load_turn, try_except.
  erewrite bind_run_ok by exact Hinit. erewrite bind_run_ok by exact Hact. simpl.
  do 2 eexists. split; [reflexivity|].
  unfold visited. rewrite Hp2.
  split; [assumption|]. split; [assumption|]. split; [auto|].
  split; [intros Hno; exfalso; apply Hno, in_map, Hf|]. auto.
Qed.

Lemma quarantine_loop retry pre post st :
  (1 < retry)%Z ->
  ms = pre ++ f :: post ->
  db_ready (host st) = true -> plugin_configs (host st) = T ->
  plugin_modules (reg st) = ms ->
  exists st' t,
    load_loop retry None st = (Ok Registered, st', t) /\ visited ms st'.
Proof.
  intros Hretry Hms Hdb Ht Hm.
  assert (Hf : In f ms) by (rewrite Hms; apply in_or_app; simpl; auto).
  assert (Hpre : forall c, In c pre -> loads c).
  { intros c Hc. destruct (Hall c) as [-> | Hl]; [rewrite Hms; apply in_or_app; auto | | exact Hl].
    exfalso. rewrite Hms in Hkeys. apply NoDup_map_middle in Hkeys as [Hno _].
    apply Hno. apply in_map. exact Hc. }
  destruct (first_turn pre post st Hretry Hms Hpre Hdb Ht Hm)
    as (s1 & t1 & Hturn1 & Hs1).
  destruct (second_turn (retry - 1) Hf Hs1) as (s2 & t2 & Hturn2 & Hv).
  rewrite load_loop_eq, Hturn1, load_loop_eq, Hturn2. simpl.
  do 2 eexists. split; [reflexivity | exact Hv].
Qed.
End Quarantine.

(** X17.  Quarantine convergence.  Outside of tests, with at least two
    tries allowed, a reachable database and a host that can load every
    list of apps: when one discovered class, activated in the table,
    raises from its constructor with an error path that names it and no
    other class, and every other class is activated and constructs an
    instance named as the class announces, then load_plugins returns; the
    inactive map holds exactly the failing plugin with its row saved as
    inactive, a lookup of that row in the table finds it inactive, every
    other class is a key of the active map, and the failing one is not.
    The order of the discovery list plays no part. *)
Theorem quarantine_convergence st f row_f path message :
  PLUGIN_TESTING env = false ->
  (2 <= PLUGIN_RETRY env)%Z ->
  db_ready (host st) = true ->
  (forall l h, fst (apps_populate l h) = None) ->
  (forall l h, fst (apps_set_installed_apps l h) = None) ->
  NoDup (map plug_key_of (plugin_modules (reg st))) ->
  In f (plugin_modules (reg st)) ->
  find (config_matches (plug_key_of f) (PLUGIN_NAME f)) (plugin_configs (host st))
  = Some row_f ->
  cfg_active row_f = true ->
  (forall r, In r (plugin_configs (host st)) -> cfg_pk r = cfg_pk row_f -> r = row_f) ->
  construct f = InstRaises path message ->
  is_blocked (Some path) f = true ->
  (forall c, In c (plugin_modules (reg st)) -> c <> f ->
     is_blocked (Some path) c = false /\
     exists r i,
       find (config_matches (plug_key_of c) (PLUGIN_NAME c)) (plugin_configs (host st))
       = Some r /\
       cfg_active r = true /\
       construct c = InstOk i /\ slug i = plug_key_of c /\ inst_name i = PLUGIN_NAME c) ->
  exists st' t,
    load_plugins st = (Ok tt, st', t) /\
    plugins_inactive (reg st') = [(plug_key_of f, Some (deactivated row_f))] /\
    find (config_matches (plug_key_of f) (PLUGIN_NAME f)) (plugin_configs (host st'))
    = Some (deactivated row_f) /\
    (forall c, In c (plugin_modules (reg st)) -> c <> f ->
               In (plug_key_of c) (keys (plugins (reg st')))) /\
    ~ In (plug_key_of f) (keys (plugins (reg st'))).
Proof.
  intros Htest Hretry Hdb Hpopulate Hset Hkeys Hf Hrow Hactive Hpk Hfails Hblocked Hothers.
  destruct (in_split _ _ Hf) as (pre & post & Hms).
  assert (Hdistinct : forall c, In c (plugin_modules (reg st)) -> c <> f ->
                                plug_key_of c <> plug_key_of f).
  { intros c Hc Hne Heq. rewrite Hms in Hkeys, Hc.
    apply NoDup_map_middle in Hkeys as [Hpre Hpost].
    apply in_app_or in Hc as [Hc | [Hc | Hc]].
    - apply Hpre. rewrite <- Heq. apply in_map. exact Hc.
    - congruence.
    - apply Hpost. rewrite <- Heq. apply in_map. exact Hc. }
  assert (Hall : forall c, In c (plugin_modules (reg st)) ->
                           c = f \/ loads (plugin_configs (host st)) f path c).
  { intros c Hc. rewrite Hms in Hc. apply in_app_or in Hc as [Hc | [Hc | Hc]]; [right | auto | right].
    - assert (Hin : In c (plugin_modules (reg st))) by (rewrite Hms; apply in_or_app; auto).
      assert (Hne : c <> f).
      { intros ->. rewrite Hms in Hkeys. apply NoDup_map_middle in Hkeys as [Hpre _].
        apply Hpre. apply in_map. exact Hc. }
      destruct (Hothers c Hin Hne) as [Hb Hrest].
      split; [exact Hb|]. split; [apply Hdistinct; assumption | exact Hrest].
    - assert (Hin : In c (plugin_modules (reg st)))
        by (rewrite Hms; apply in_or_app; simpl; auto).
      assert (Hne : c <> f).
      { intros ->. rewrite Hms in Hkeys. apply NoDup_map_middle in Hkeys as [_ Hpost].
        apply Hpost. apply in_map. exact Hc. }
      destruct (Hothers c Hin Hne) as [Hb Hrest].
      split; [exact Hb|]. split; [apply Hdistinct; assumption | exact Hrest]. }
  assert (Hentry : reg (load_entry st) = reg st /\
                   db_ready (host (load_entry st)) = db_ready (host st) /\
                   plugin_configs (host (load_entry st)) = plugin_configs (host st))
    by (unfold load_entry; destruct (maintenance_mode (host st)); auto).
  destruct Hentry as (Hreg & Hdb0 & Ht0).
  destruct (quarantine_loop Htest Hpopulate Hset Hrow Hactive Hpk Hfails Hblocked Hkeys Hall
              (retry := PLUGIN_RETRY env) pre post (load_entry st))
    as (s1 & t1 & Hloop & Hd1 & Hm1 & Hin & _ & Hk & Hp);
    [lia | exact Hms | congruence | congruence | congruence |].
  destruct Hin as [Ht1 Hq1]; [apply in_map; exact Hf|].
  assert (Hfacts :
            plugins_inactive (reg s1) = [(plug_key_of f, Some (deactivated row_f))] /\
            find (config_matches (plug_key_of f) (PLUGIN_NAME f)) (plugin_configs (host s1))
            = Some (deactivated row_f) /\
            (forall c, In c (plugin_modules (reg st)) -> c <> f ->
                       In (plug_key_of c) (keys (plugins (reg s1)))) /\
            ~ In (plug_key_of f) (keys (plugins (reg s1)))).
  { split; [exact Hq1|]. split.
    - rewrite Ht1. apply find_quarantined_row; assumption.
    - split.
      + intros c Hc Hne. apply Hk; [exact Hc | apply Hdistinct; assumption].
      + intros Hbad. unfold keys in Hbad. apply in_map_iff in Hbad as ([k p] & Heq & Hkp).
        simpl in Heq. subst k. destruct (Hp _ _ Hkp) as [Hne _]. apply Hne. reflexivity. }
  rewrite load_plugins_run, Hloop. simpl.
  destruct (maintenance_mode (host st)); do 2 eexists; (split; [reflexivity|]); exact Hfacts.
Qed.

(** *** A failed reload of the host apps *)

(** X18.  When the reload of the host apps fails, the exception that
    leaves _reload_apps is the classified plugin error, the guard flag
    is left set (it is only reset after a successful reload), and from
    the state so reached reload_plugins does nothing at all. *)
Theorem failed_reload_blocks_reloads force st e st' t :
  _reload_apps force st = (Raise e, st', t) ->
  (exists path message, e = IntegrationPluginError path message) /\
  is_loading (reg st') = true /\
  INSTALLED_APPS (host st') = INSTALLED_APPS (host st) /\
  reload_plugins st' = (Ok tt, st', []).
Proof.
  intros Hrun.
  assert (Hcore : (exists path message, e = IntegrationPluginError path message) /\
                  is_loading (reg st') = true /\
                  INSTALLED_APPS (host st') = INSTALLED_APPS (host st)).
  { revert Hrun. unfold _reload_apps, bind, modify, emit, gets, _try_reload. simpl.
    destruct force; simpl.
    - destruct (apps_populate _ _) as [[[p m]|] a]; simpl;
        unfold get_plugin_error, bind, ret, raise; simpl;
        intros Heq; inversion Heq; subst; clear Heq; simpl; eauto.
    - destruct (apps_set_installed_apps _ _) as [[[p m]|] a]; simpl;
        unfold get_plugin_error, bind, ret, raise; simpl;
        intros Heq; inversion Heq; subst; clear Heq; simpl; eauto. }
  destruct Hcore as (He & Hflag & Happs).
  split; [exact He|]. split; [exact Hflag|]. split; [exact Happs|].
  unfold reload_plugins, bind, gets. rewrite Hflag. reflexivity.
Qed.

(** *** reload_plugins *)

Lemma unload_plugins_cleans st st' t :
  unload_plugins st = (Ok tt, st', t) ->
  clean st' /\ plugin_modules (reg st') = plugin_modules (reg st).
Proof.
  unfold unload_plugins, get_maintenance_mode. intros Hrun.
  apply bind_ok in Hrun as (m & s1 & t1 & t2 & Hm & Hrun & ->).
  inversion Hm; subst; clear Hm.
  apply bind_ok in Hrun as ([] & s2 & t3 & t4 & Hset & Hrun & ->).
  apply bind_ok in Hrun as ([] & s3 & t5 & t6 & Hreg & Hrun & ->).
  inversion Hreg; subst; clear Hreg.
  apply bind_ok in Hrun as ([] & s4 & t7 & t8 & Hdeact & Hend & ->).
  destruct (deactivate_plugins_frame _ Hdeact) as (Hframe & _ & _).
  destruct (deactivate_plugins_post _ Hdeact) as (Hia & _).
  unfold deactivation_frame, same in Hframe. simpl in Hframe.
  injection Hframe as Hp Hi Hmod _ _ _ _ _.
  unfold set_maintenance, bind, modify, emit, ret in Hset, Hend.
  unfold clean.
  destruct (maintenance_mode (host s1)); simpl in *;
    inversion Hset; subst; clear Hset; inversion Hend; subst; clear Hend;
    simpl in *; repeat split; auto.
Qed.

(** X16.  A reload that is not refused by the guard and returns leaves
    the registry invariant established, whatever state it started from
    (given discovered classes of pairwise distinct keys whose instances
    carry the key as their slug): no key is in both maps, every recorded
    app path is the path of an active plugin with the app mixin, and the
    maintenance flag is back to what it was before the reload. *)
Theorem reload_plugins_establishes_invariant st st' t :
  is_loading (reg st) = false ->
  well_slugged (plugin_modules (reg st)) ->
  reload_plugins st = (Ok tt, st', t) ->
  maps_disjoint st' /\
  apps_of_active st' /\
  maintenance_mode (host st') = maintenance_mode (host st).
Proof.
  intros Hflag Hws Hrun.
  unfold reload_plugins in Hrun.
  apply bind_ok in Hrun as (loading & s0 & t0 & t0' & Hget & Hrun & ->).
  unfold gets in Hget. inversion Hget; subst; clear Hget.
  rewrite Hflag in Hrun.
  unfold with_maintenance_mode_on, set_maintenance, modify, emit in Hrun.
  simpl in Hrun.
  set (st0 := upd_host (set_maintenance_mode true) s0) in *.
  destruct (bind unload_plugins (fun _ => load_plugins) st0) as [[o s1] t1] eqn:Hbody.
  simpl in Hrun. inversion Hrun; subst; clear Hrun.
  apply bind_ok in Hbody as ([] & s2 & t2 & t3 & Hunload & Hload & ->).
  destruct (unload_plugins_cleans _ Hunload) as [Hclean Hmods].
  assert (Hws2 : well_slugged (plugin_modules (reg s2))) by (rewrite Hmods; exact Hws).
  rewrite load_plugins_run in Hload.
  assert (Hentry : reg (load_entry s2) = reg s2)
    by (unfold load_entry; destruct (maintenance_mode (host s2)); reflexivity).
  assert (Hinv : maps_disjoint (snd (fst (load_loop (PLUGIN_RETRY env) None (load_entry s2))))
                 /\ apps_of_active
                      (snd (fst (load_loop (PLUGIN_RETRY env) None (load_entry s2))))).
  { apply load_loop_invariant.
    - rewrite Hentry. assumption.
    - unfold clean in *. rewrite Hentry. assumption. }
  destruct (load_loop _ _ _) as [[[x|e] s3] t4]; simpl in *;
    destruct (maintenance_mode (host s2)); simpl in *;
    inversion Hload; subst; clear Hload; simpl.
  all: unfold maps_disjoint, apps_of_active in *; simpl; tauto.
Qed.

End Registry.

(** ** A concrete host and concrete plugins *)

(** A host whose application registry is the list of module paths it was
    last populated with; the app "sample" defines one model, registered
    with the admin site, and the registry of models holds it under the app
    label "sample" (not under a dotted module path); loading fails exactly
    when the list contains the path of the broken app. *)
Definition demo_apps := list string.

Definition broken_app : string := "samples.broken_app".

Definition demo_load (installed : list string) (h : demo_apps)
  : option (string * string) * demo_apps :=
  if mem broken_app installed
  then (Some ("samples.broken_app", "cannot import broken_app"), h)
  else (None, installed).

#[export] Instance demo_HostApps : HostApps demo_apps := {|
  get_app_config := fun h name => existsb (fun p => last_component p =? name) h;
  models_module_set := fun _ _ => false;
  models_count := fun _ _ => 0;
  get_models := fun _ name => if name =? "sample" then ["note"] else [];
  has_admin_module := fun _ _ => false;
  admin_is_registered := fun _ _ _ => true;
  reload_models_module := fun _ h => h;
  reload_admin_module := fun _ h => h;
  admin_unregister := fun _ _ h => Some h;
  all_models_pop := fun key model h => ((key =? "sample") && (model =? "note"), h);
  all_models_contains := fun _ name => name =? "sample";
  all_models_pop_app := fun _ h => h;
  apps_reset := fun _ => [];
  apps_populate := demo_load;
  apps_set_installed_apps := demo_load
|}.

Definition state_of {H A} (r : Outcome A * State H * list Event) : State H := snd (fst r).
Definition outcome_of {H A} (r : Outcome A * State H * list Event) : Outcome A := fst (fst r).
Definition trace_of {H A} (r : Outcome A * State H * list Event) : list Event := snd r.

(** Settings: [testing] is PLUGIN_TESTING, [retry] is PLUGIN_RETRY; slugify
    is the identity on the slugs used here, which are already normalised. *)
Definition demo_env (testing : bool) (retry : Z) : Env :=
  mkEnv testing false retry [] true true (fun s => s) (fun _ => DirModules []) [] false.

Definition demo_instance (name : string) (mixin_keys tasks : list string) : PluginInstance :=
  mkInstance name name (Some ["samples"; name]) mixin_keys [] tasks false None.

(** A plugin class of module samples.<name> that instantiates. *)
Definition demo_class (cls name : string) (mixin_keys tasks : list string) : PluginClass :=
  mkClass cls ("samples." ++ name) name None false
          (InstOk (demo_instance name mixin_keys tasks)).

(** A plugin class whose constructor raises; the error is tagged with the
    module that defines it. *)
Definition failing_class (cls name : string) : PluginClass :=
  mkClass cls ("samples." ++ name) name None false
          (InstRaises ("samples." ++ name) "constructor failed").

Definition demo_routes : list RouteEntry :=
  [mkRoute (Some "admin") "old admin"; mkRoute None "index"; mkRoute (Some "plugin") "old plugins"].

Definition demo_host (table : list PluginConfig) (scheduled : list string) : Host demo_apps :=
  mkHost false ["InvenTree"] true true table scheduled demo_routes demo_routes 0 ["InvenTree"].

Definition demo_state (modules : list PluginClass) (table : list PluginConfig)
           (scheduled : list string) : State demo_apps :=
  mkState (mkRegistry [] [] modules [] false true [] []) (demo_host table scheduled).

(** ** Instances of the theorems *)

Definition loading_state : State demo_apps :=
  upd_reg (set_is_loading true) (demo_state [] [] []).

Lemma reload_plugins_while_loading_witness :
  is_loading (reg loading_state) = true /\
  reload_plugins (demo_env false 5) loading_state = (Ok tt, loading_state, []).
Proof.
  split; [reflexivity | apply reload_plugins_while_loading; reflexivity].
Defined.

(** The plugin "sample" had the tasks alpha and beta scheduled and now
    declares alpha only. *)
Definition sample_now : PluginInstance := demo_instance "sample" ["schedule"] ["alpha"].










(** A plugin with the app, schedule and settings mixins, enabled. *)
Definition sample_class : PluginClass :=
  demo_class "SamplePlugin" "sample" ["app"; "schedule"; "settings"] ["alpha"].

Definition sample_discovered : State demo_apps :=
  demo_state [sample_class] [mkConfig 1 "sample" "sample" true] [].

Definition sample_load := load_plugins (demo_env false 5) sample_discovered.



Definition sample_loaded : State demo_apps := state_of sample_load.

(** A plugin with the app mixin whose app defines no model. *)
Definition tool_class : PluginClass :=
  demo_class "ToolPlugin" "tool" ["app"; "schedule"; "settings"] ["alpha"].

Definition tool_discovered : State demo_apps :=
  demo_state [tool_class] [mkConfig 1 "tool" "tool" true] [].

Definition tool_loaded : State demo_apps :=
  state_of (load_plugins (demo_env false 5) tool_discovered).







(** Discovery with a search path that cannot be imported, before one that
    can, and one entry point. *)
Definition discovery_env : Env :=
  mkEnv false false 5 ["plugin.missing"; "plugin.samples"] true true (fun s => s)
        (fun dir => if dir =? "plugin.missing"
                    then DirImportFails "No module named plugin.missing"
                    else DirModules [sample_class])
        [EntryLoaded (demo_class "Packaged" "packaged" [] [])] false.

(** C6 fails on the code: the import error of the first search path leaves
    collect_plugins as an exception; it is not recorded in [errors], and
    neither the second search path nor the entry point is collected. *)
Lemma collect_plugins_dir_failure_escapes :
  collect_plugins discovery_env (demo_state [] [] []) =
    (Raise (ImportError "No module named plugin.missing"), demo_state [] [] [], []).
Proof. vm_compute. reflexivity. Qed.

(** One plugin that loads and one whose constructor fails, with a single
    try allowed. *)
Definition one_try : State demo_apps :=
  demo_state [sample_class; failing_class "Broken" "broken"]
             [mkConfig 1 "sample" "sample" true; mkConfig 2 "broken" "broken" true] [].

Definition one_try_load := load_plugins (demo_env false 1) one_try.

(** C3 fails on the code: the retries are used up, load_plugins returns,
    and the two discovered plugins are in neither map. *)
Lemma retry_exhaustion_drops_plugins :
  load_exit (demo_env false 1) one_try = Some MaxRetries /\
  outcome_of one_try_load = Ok tt /\
  plugins (reg (state_of one_try_load)) = [] /\
  ~ In "broken" (keys (plugins_inactive (reg (state_of one_try_load)))) /\
  ~ In "sample" (keys (plugins_inactive (reg (state_of one_try_load)))).
Proof.
  split; [|split; [|split; [|split]]].
  - vm_compute. reflexivity.
  - vm_compute. reflexivity.
  - vm_compute. reflexivity.
  - vm_compute. intros [].
  - vm_compute. intros [].
Qed.

Lemma retry_exhaustion_empties_registry_witness :
  load_exit (demo_env false 1) one_try = Some MaxRetries /\
  exists st' t,
    load_plugins (demo_env false 1) one_try = (Ok tt, st', t) /\
    plugins (reg st') = [] /\
    plugins_inactive (reg st') = [] /\
    installed_apps (reg st') = [].
Proof.
  split; [vm_compute; reflexivity|].
  apply (retry_exhaustion_empties_registry (demo_env false 1) one_try).
  vm_compute. reflexivity.
Defined.

(** ** Instances of the further properties *)

Lemma unload_plugins_post_witness :
  unload_plugins tool_loaded =
    (Ok tt, state_of (unload_plugins tool_loaded), trace_of (unload_plugins tool_loaded)) /\
  INSTALLED_APPS (host tool_loaded) = ["InvenTree"; "samples.tool"] /\
  plugins (reg (state_of (unload_plugins tool_loaded))) = [] /\
  INSTALLED_APPS (host (state_of (unload_plugins tool_loaded))) = ["InvenTree"] /\
  schedules (host (state_of (unload_plugins tool_loaded))) = ["plugin.tool.alpha"].
Proof.
  split; [vm_compute; reflexivity|]. split; [vm_compute; reflexivity|].
  destruct (unload_plugins_post tool_loaded
              (st' := state_of (unload_plugins tool_loaded))
              (t := trace_of (unload_plugins tool_loaded)))
    as (Hp & _ & _ & _ & _ & Happs & _ & _ & Hsched); [vm_compute; reflexivity|].
  split; [exact Hp|]. split.
  - rewrite Happs. vm_compute. reflexivity.
  - rewrite Hsched. vm_compute. reflexivity.
Defined.

(** The state of [sample_discovered] before the database is available. *)
Definition no_database : State demo_apps :=
  mkState (reg sample_discovered)
          (mkHost false ["InvenTree"] true false [] ["plugin.sample.beta"]
                  demo_routes demo_routes 0 ["InvenTree"]).

Lemma schedule_activation_unavailable_witness :
  db_ready (host no_database) = false /\
  activate_integration_schedule (demo_env false 5) [("sample", sample_now)] no_database
  = (Ok tt, no_database, []).
Proof.
  split; [reflexivity|].
  apply (schedule_activation_unavailable (demo_env false 5)). reflexivity.
Defined.

Lemma load_plugins_without_database_witness :
  PLUGIN_TESTING (demo_env false 5) = false /\
  db_ready (host no_database) = false /\
  plugin_modules (reg no_database) <> [] /\
  exists st' t,
    load_plugins (demo_env false 5) no_database = (Ok tt, st', t) /\
    reg st' = reg no_database /\
    host st' = host no_database /\
    (forall cls, ~ In (EvInstantiate cls) t) /\
    load_exit (demo_env false 5) no_database = Some DbNotAccessible.
Proof.
  split; [reflexivity|]. split; [reflexivity|]. split; [discriminate|].
  apply (load_plugins_without_database (demo_env false 5) no_database);
    [reflexivity | reflexivity | discriminate].
Defined.

(** Two active plugins, the first with the settings mixin. *)
Definition configurable : PluginInstance :=
  mkInstance "sample" "sample" (Some ["samples"; "sample"]) ["settings"]
             [("API_KEY", "string")] [] false None.

Definition two_active : dict PluginInstance :=
  [("sample", configurable); ("plain", demo_instance "plain" [] [])].

Lemma settings_index_rebuilt_witness :
  NoDup (keys two_active) /\
  mixins_settings
    (reg (state_of (activate_integration_settings two_active (demo_state [] [] []))))
  = [("sample", [("API_KEY", "string")])].
Proof.
  assert (Hkeys : NoDup (keys two_active)).
  { constructor; [simpl; intros [Heq | []]; discriminate Heq|].
    constructor; [intros []|]. constructor. }
  split; [exact Hkeys|].
  rewrite (settings_index_rebuilt two_active (demo_state [] [] []) Hkeys). reflexivity.
Defined.

(** Discovery with one search path that imports and two entry points, the
    second of which cannot be loaded. *)
Definition packaged_env : Env :=
  mkEnv false false 5 ["plugin.samples"] true true (fun s => s)
        (fun _ => DirModules [sample_class])
        [EntryLoaded (demo_class "Packaged" "packaged" [] []);
         EntryFails "pkg.bad" "cannot load pkg.bad"] false.

Lemma collect_plugins_contains_entry_failures_witness :
  (forall dir, In dir (PLUGIN_DIRS packaged_env) ->
               exists found, import_plugin_dir packaged_env dir = DirModules found) /\
  exists st',
    collect_plugins packaged_env one_try = (Ok tt, st', []) /\
    plugin_modules (reg st') =
      flat_map (dir_modules packaged_env) (PLUGIN_DIRS packaged_env) ++
      (if entry_points_enabled packaged_env
       then flat_map entry_modules (entry_points packaged_env) else []) /\
    host st' = host one_try /\
    plugins (reg st') = plugins (reg one_try) /\
    plugins_inactive (reg st') = plugins_inactive (reg one_try) /\
    (entry_points_enabled packaged_env = true ->
     forall path message,
       In (EntryFails path message) (entry_points packaged_env) ->
       In path (keys (errors (reg st')))).
Proof.
  assert (Himport : forall dir, In dir (PLUGIN_DIRS packaged_env) ->
                      exists found, import_plugin_dir packaged_env dir = DirModules found)
    by (intros dir _; exists [sample_class]; reflexivity).
  split; [exact Himport|].
  apply (collect_plugins_contains_entry_failures packaged_env one_try Himport).
Defined.

Lemma only_activated_plugins_instantiated_witness :
  PLUGIN_TESTING (demo_env false 5) = false /\
  config_default_active (demo_env false 5) = false /\
  In (EvInstantiate "SamplePlugin")
     (trace_of (_init_plugins (demo_env false 5) None one_try)) /\
  exists plugin,
    In plugin (plugin_modules (reg one_try)) /\
    cls_name plugin = "SamplePlugin" /\
    is_blocked None plugin = false /\
    activated_by (demo_env false 5) (plugin_configs (host one_try)) plugin.
Proof.
  assert (Hin : In (EvInstantiate "SamplePlugin")
                   (trace_of (_init_plugins (demo_env false 5) None one_try)))
    by (vm_compute; auto).
  split; [reflexivity|]. split; [reflexivity|]. split; [exact Hin|].
  apply (only_activated_plugins_instantiated (demo_env false 5) None one_try
           (o := outcome_of (_init_plugins (demo_env false 5) None one_try))
           (st' := state_of (_init_plugins (demo_env false 5) None one_try))
           (t := trace_of (_init_plugins (demo_env false 5) None one_try)));
    [reflexivity | reflexivity | vm_compute; reflexivity | exact Hin].
Defined.

Lemma app_name_of_plugin_path_witness :
  rel_path sample_now = Some (["samples"] ++ ["sample"]) /\
  no_dot "sample" = true /\
  last_component (_get_plugin_path sample_now) = "sample".
Proof.
  split; [reflexivity|]. split; [reflexivity|].
  apply (app_name_of_plugin_path sample_now ["samples"] "sample"); reflexivity.
Defined.

(** The app of the plugin is already among the applications of the site. *)
Definition app_listed : State demo_apps :=
  mkState (reg sample_discovered)
          (mkHost false ["InvenTree"; "samples.sample"] true true [] []
                  demo_routes demo_routes 0 ["InvenTree"; "samples.sample"]).

Definition sample_app : PluginInstance := demo_instance "sample" ["app"] [].

Lemma app_activation_nothing_new_witness :
  (forall k p, In (k, p) [("sample", sample_app)] ->
               mixin_enabled p "app" = true ->
               In (_get_plugin_path p) (INSTALLED_APPS (host app_listed))) /\
  activate_integration_app (demo_env false 5) [("sample", sample_app)] false app_listed
  = (Ok tt, app_listed, []).
Proof.
  assert (Hlisted : forall k p, In (k, p) [("sample", sample_app)] ->
                      mixin_enabled p "app" = true ->
                      In (_get_plugin_path p) (INSTALLED_APPS (host app_listed))).
  { intros k p [Heq | []] _. inversion Heq; subst. simpl. auto. }
  split; [exact Hlisted|].
  apply (app_activation_nothing_new (demo_env false 5) [("sample", sample_app)] app_listed
           Hlisted).
Defined.

(** The load of [one_try] with five tries allowed: the failing plugin is
    set aside on the second pass and the sample plugin becomes active. *)
Definition quarantine_load := load_plugins (demo_env false 5) one_try.

Lemma active_keys_are_constructed_witness :
  In "sample" (keys (plugins (reg (snd (fst quarantine_load))))) /\
  (In "sample" (keys (plugins (reg one_try))) \/
   exists c i,
     In c (plugin_modules (reg one_try)) /\ construct c = InstOk i /\ slug i = "sample").
Proof.
  assert (Hactive : In "sample" (keys (plugins (reg (snd (fst quarantine_load))))))
    by (vm_compute; auto).
  split; [exact Hactive|].
  apply (active_keys_are_constructed (demo_env false 5) one_try "sample" Hactive).
Defined.

Lemma one_try_well_slugged :
  well_slugged (demo_env false 5) [sample_class; failing_class "Broken" "broken"].
Proof.
  split.
  - constructor; [simpl; intros [Heq | []]; discriminate Heq|].
    constructor; [intros []|]. constructor.
  - intros c i [<- | [<- | []]] Hc; simpl in Hc.
    + inversion Hc; subst. reflexivity.
    + discriminate Hc.
Defined.

Lemma load_plugins_establishes_invariant_witness :
  well_slugged (demo_env false 5) (plugin_modules (reg one_try)) /\
  clean one_try /\
  maps_disjoint (snd (fst (load_plugins (demo_env false 5) one_try))) /\
  apps_of_active (snd (fst (load_plugins (demo_env false 5) one_try))).
Proof.
  assert (Hclean : clean one_try) by (split; [|split]; reflexivity).
  split; [exact one_try_well_slugged|]. split; [exact Hclean|].
  apply (load_plugins_establishes_invariant (env := demo_env false 5) (st := one_try)
           one_try_well_slugged Hclean).
Defined.

(** A plugin whose app defines no model and a class whose constructor
    fails, loaded once; then a reload. *)
Definition tool_try : State demo_apps :=
  demo_state [tool_class; failing_class "Broken" "broken"]
             [mkConfig 1 "tool" "tool" true; mkConfig 2 "broken" "broken" true] [].

Definition tool_try_loaded : State demo_apps :=
  state_of (load_plugins (demo_env false 5) tool_try).

Definition tool_reload := reload_plugins (demo_env false 5) tool_try_loaded.

Lemma tool_try_well_slugged :
  well_slugged (demo_env false 5) [tool_class; failing_class "Broken" "broken"].
Proof.
  split.
  - constructor; [simpl; intros [Heq | []]; discriminate Heq|].
    constructor; [intros []|]. constructor.
  - intros c i [<- | [<- | []]] Hc; simpl in Hc.
    + inversion Hc; subst. reflexivity.
    + discriminate Hc.
Defined.

Lemma reload_plugins_establishes_invariant_witness :
  is_loading (reg tool_try_loaded) = false /\
  installed_apps (reg tool_try_loaded) = ["samples.tool"] /\
  well_slugged (demo_env false 5) (plugin_modules (reg tool_try_loaded)) /\
  tool_reload = (Ok tt, state_of tool_reload, trace_of tool_reload) /\
  maps_disjoint (state_of tool_reload) /\
  apps_of_active (state_of tool_reload) /\
  maintenance_mode (host (state_of tool_reload)) = maintenance_mode (host tool_try_loaded).
Proof.
  assert (Hflag : is_loading (reg tool_try_loaded) = false) by (vm_compute; reflexivity).
  assert (Hmods : plugin_modules (reg tool_try_loaded)
                  = [tool_class; failing_class "Broken" "broken"])
    by (vm_compute; reflexivity).
  assert (Hws : well_slugged (demo_env false 5) (plugin_modules (reg tool_try_loaded)))
    by (rewrite Hmods; exact tool_try_well_slugged).
  assert (Hrun : tool_reload = (Ok tt, state_of tool_reload, trace_of tool_reload))
    by (vm_compute; reflexivity).
  split; [exact Hflag|]. split; [vm_compute; reflexivity|].
  split; [exact Hws|]. split; [exact Hrun|].
  apply (reload_plugins_establishes_invariant (env := demo_env false 5) tool_try_loaded
           (st' := state_of tool_reload) (t := trace_of tool_reload)
           Hflag Hws Hrun).
Defined.

(** A host that can load every list of apps; it defines no models. *)
#[export] Instance quiet_HostApps : HostApps unit := {|
  get_app_config := fun _ _ => true;
  models_module_set := fun _ _ => false;
  models_count := fun _ _ => 0;
  get_models := fun _ _ => [];
  has_admin_module := fun _ _ => false;
  admin_is_registered := fun _ _ _ => true;
  reload_models_module := fun _ h => h;
  reload_admin_module := fun _ h => h;
  admin_unregister := fun _ _ h => Some h;
  all_models_pop := fun _ _ h => (false, h);
  all_models_contains := fun _ _ => false;
  all_models_pop_app := fun _ h => h;
  apps_reset := fun h => h;
  apps_populate := fun _ h => (None, h);
  apps_set_installed_apps := fun _ h => (None, h)
|}.

Definition broken_class : PluginClass := failing_class "Broken" "broken".

Definition broken_row : PluginConfig := mkConfig 2 "broken" "broken" true.

(** Three discovered classes, the failing one in the middle, each with an
    activated row. *)
Definition three_discovered : State unit :=
  mkState
    (mkRegistry [] [] [sample_class; broken_class; demo_class "Plain" "plain" [] []]
                [] false true [] [])
    (mkHost false ["InvenTree"] true true
            [mkConfig 1 "sample" "sample" true; broken_row; mkConfig 3 "plain" "plain" true]
            [] demo_routes demo_routes 0 tt).

Lemma quarantine_convergence_witness :
  In broken_class (plugin_modules (reg three_discovered)) /\
  construct broken_class = InstRaises "samples.broken" "constructor failed" /\
  exists st' t,
    load_plugins (demo_env false 5) three_discovered = (Ok tt, st', t) /\
    plugins_inactive (reg st') = [("broken", Some (mkConfig 2 "broken" "broken" false))] /\
    find (config_matches "broken" "broken") (plugin_configs (host st'))
    = Some (mkConfig 2 "broken" "broken" false) /\
    (forall c, In c (plugin_modules (reg three_discovered)) -> c <> broken_class ->
               In (plug_key_of (demo_env false 5) c) (keys (plugins (reg st')))) /\
    ~ In "broken" (keys (plugins (reg st'))).
Proof.
  assert (Hin : In broken_class (plugin_modules (reg three_discovered)))
    by (simpl; auto).
  split; [exact Hin|]. split; [reflexivity|].
  apply (quarantine_convergence (demo_env false 5) three_discovered
           (f := broken_class) (row_f := broken_row)
           (path := "samples.broken") (message := "constructor failed")).
  - reflexivity.
  - simpl. lia.
  - reflexivity.
  - reflexivity.
  - reflexivity.
  - simpl. repeat (constructor; [simpl; intuition discriminate|]). constructor.
  - exact Hin.
  - reflexivity.
  - reflexivity.
  - intros r [<- | [<- | [<- | []]]] Hpk; simpl in Hpk; try discriminate Hpk; reflexivity.
  - reflexivity.
  - reflexivity.
  - intros c [<- | [<- | [<- | []]]] Hne.
    + split; [reflexivity|]. do 2 eexists. repeat split; reflexivity.
    + contradiction Hne. reflexivity.
    + split; [reflexivity|]. do 2 eexists. repeat split; reflexivity.
Defined.

(** The broken app is among the applications of the site. *)
Definition broken_installed : State demo_apps :=
  mkState (reg sample_discovered)
          (mkHost false ["InvenTree"; broken_app] true true [] []
                  demo_routes demo_routes 0 ["InvenTree"]).

Definition broken_reload := _reload_apps true broken_installed.

Lemma failed_reload_blocks_reloads_witness :
  broken_reload =
    (Raise (IntegrationPluginError "samples.broken_app" "cannot import broken_app"),
     state_of broken_reload, trace_of broken_reload) /\
  is_loading (reg (state_of broken_reload)) = true /\
  reload_plugins (demo_env false 5) (state_of broken_reload)
  = (Ok tt, state_of broken_reload, []).
Proof.
  assert (Hrun : broken_reload =
                 (Raise (IntegrationPluginError "samples.broken_app" "cannot import broken_app"),
                  state_of broken_reload, trace_of broken_reload))
    by (vm_compute; reflexivity).
  split; [exact Hrun|].
  destruct (failed_reload_blocks_reloads (demo_env false 5) true broken_installed Hrun)
    as (_ & Hflag & _ & Hnoop).
  split; [exact Hflag | exact Hnoop].
Defined.
